(** * Fast React Pizza Co: cart slice, order submission and order retrieval

    A shallow embedding of the cart reducers (features/cart/cartSlice.js as
    listed in the lesson notes), of the order form and its route action
    (features/order/CreateOrder.jsx, createOrderAction) and of the
    restaurant API service (services/apiRestaurant.js).

    Conventions of the embedding:
    - JavaScript numbers are modelled on their integer values, as [Z]: every
      number the program handles (ids, quantities, prices of the menu) is an
      integer; fractions, NaN and the infinities are outside the model.
    - JavaScript strings are [string]; one [ascii] stands for one code unit
      in the range 0..255.
    - A reducer written against an Immer draft is a function from the old
      state to the new one; a thrown exception is an explicit [Throw].
    - Code that talks to the network runs in a small state-and-exception
      monad over a [World] that holds the Redux store and records every
      request handed to [fetch].
    - The slice is listed twice in the notes, before and after the lesson
      that makes [decreaseItemQuantity] remove an item at quantity zero;
      both listings are embedded ([Revision]). *)

From Stdlib Require Import ZArith String Ascii List Lia.
From Stdlib Require Import Decimal DecimalFacts DecimalPos DecimalZ DecimalString.
From stdpp Require Import base tactics option list strings gmap.

Local Open Scope Z_scope.
#[local] Arguments String.append : simpl nomatch.

(** ** Exceptions and completions *)

(** What a [throw] carries.  [Error message] is [throw Error(message)];
    [TypeError] and [SyntaxError] are raised by the language itself (a
    property read on [undefined], a rejected [fetch], a malformed JSON text)
    and their engine-specific messages are not modelled. *)
Inductive Thrown : Type :=
| Error (message : string)
| TypeError
| SyntaxError.

Inductive Completion (A : Type) : Type :=
| Normal (value : A)
| Throw (exn : Thrown).
Arguments Normal {A} value.
Arguments Throw {A} exn.

(** ** The cart slice *)

Record CartItem : Type := mkCartItem {
  pizzaId : Z;
  name : string;
  quantity : Z;
  unitPrice : Z;
  totalPrice : Z
}.

Definition withQuantity (q : Z) (item : CartItem) : CartItem :=
  {| pizzaId := pizzaId item; name := name item; quantity := q;
     unitPrice := unitPrice item; totalPrice := totalPrice item |}.

Definition withTotalPrice (p : Z) (item : CartItem) : CartItem :=
  {| pizzaId := pizzaId item; name := name item; quantity := quantity item;
     unitPrice := unitPrice item; totalPrice := p |}.

(** The slice state, [{ cart: [...] }]. *)
Record CartState : Type := mkCartState { cart : list CartItem }.

Definition initialState : CartState := {| cart := [] |}.

Record UserState : Type := mkUserState { username : string }.

(** The state of the whole store, with its two slices [state.user] and
    [state.cart]. *)
Record RootState : Type := mkRootState {
  userSlice : UserState;
  cartSlice : CartState
}.

(** [state.cart.find((item) => item.pizzaId === id)]: the first matching
    element together with its position, so that a write through the found
    draft lands on that element of the array. *)
Definition findItem (id : Z) (items : list CartItem) : option (nat * CartItem) :=
  list_find (λ item, pizzaId item = id) items.

(** The two statements shared by the quantity reducers:
    [item.quantity++] (or [--]) followed by
    [item.totalPrice = item.quantity * item.unitPrice]. *)
Definition bumpQuantity (delta : Z) (item : CartItem) : CartItem :=
  let item1 := withQuantity (quantity item + delta) item in
  withTotalPrice (quantity item1 * unitPrice item1) item1.

Module CartSlice.
(** The reducers as listed with the selectors (cart overview lesson); the
    cart-state lesson lists the same bodies. *)

Definition addItem (state : CartState) (payload : CartItem) : Completion CartState :=
  Normal {| cart := cart state ++ [payload] |}.

Definition deleteItem (state : CartState) (payload : Z) : Completion CartState :=
  Normal {| cart := filter (λ item, pizzaId item ≠ payload) (cart state) |}.

Definition increaseItemQuantity (state : CartState) (payload : Z) : Completion CartState :=
  match findItem payload (cart state) with
  | None => Throw TypeError
  | Some (i, item) => Normal {| cart := <[i := bumpQuantity 1 item]> (cart state) |}
  end.

Definition decreaseItemQuantity (state : CartState) (payload : Z) : Completion CartState :=
  match findItem payload (cart state) with
  | None => Throw TypeError
  | Some (i, item) => Normal {| cart := <[i := bumpQuantity (-1) item]> (cart state) |}
  end.

Definition clearCart (state : CartState) : Completion CartState :=
  Normal {| cart := [] |}.

(** Selectors, on the state of the whole store ([state.cart.cart]). *)
Definition getTotalCartQuantity (state : RootState) : Z :=
  foldl (λ sum item, sum + quantity item) 0 (cart (cartSlice state)).

Definition getTotalCartPrice (state : RootState) : Z :=
  foldl (λ sum item, sum + totalPrice item) 0 (cart (cartSlice state)).

Definition getCart (state : RootState) : list CartItem := cart (cartSlice state).

Definition getCartItemById (id : Z) (state : RootState) : option CartItem :=
  snd <$> findItem id (cart (cartSlice state)).

Definition getIsCartEmpty (state : RootState) : bool :=
  bool_decide (length (cart (cartSlice state)) = 0%nat).
End CartSlice.

Module UpdatingQuantities.
(** [decreaseItemQuantity] as rewritten in the quantity-update lesson:
    after the two writes, [if (item.quantity === 0)] the reducer hands the
    same state and action to [cartSlice.caseReducers.deleteItem]. *)
Definition decreaseItemQuantity (state : CartState) (payload : Z) : Completion CartState :=
  match findItem payload (cart state) with
  | None => Throw TypeError
  | Some (i, item) =>
      let item' := bumpQuantity (-1) item in
      let state' := {| cart := <[i := item']> (cart state) |} in
      if decide (quantity item' = 0) then CartSlice.deleteItem state' payload
      else Normal state'
  end.
End UpdatingQuantities.

(** The actions of the slice and the reducer [createSlice] builds from the
    case reducers.  The slice exists in two revisions that differ in
    [decreaseItemQuantity] only. *)
Inductive Action : Type :=
| AddItem (payload : CartItem)
| DeleteItem (payload : Z)
| IncreaseItemQuantity (payload : Z)
| DecreaseItemQuantity (payload : Z)
| ClearCart.

Inductive Revision : Type := CartOverview | QuantityUpdate.

Definition decreaseOf (rev : Revision) : CartState → Z → Completion CartState :=
  match rev with
  | CartOverview => CartSlice.decreaseItemQuantity
  | QuantityUpdate => UpdatingQuantities.decreaseItemQuantity
  end.

Definition cartReducer (rev : Revision) (state : CartState) (action : Action)
  : Completion CartState :=
  match action with
  | AddItem item => CartSlice.addItem state item
  | DeleteItem id => CartSlice.deleteItem state id
  | IncreaseItemQuantity id => CartSlice.increaseItemQuantity state id
  | DecreaseItemQuantity id => decreaseOf rev state id
  | ClearCart => CartSlice.clearCart state
  end.

(** [store.dispatch]: the state becomes what the reducer returns; when the
    reducer throws, the draft is dropped and the state stays as it was. *)
Definition dispatch (rev : Revision) (state : CartState) (action : Action) : CartState :=
  match cartReducer rev state action with
  | Normal state' => state'
  | Throw _ => state
  end.

(** The states the store goes through, one per dispatched action. *)
Fixpoint history (rev : Revision) (state : CartState) (actions : list Action)
  : list CartState :=
  match actions with
  | [] => []
  | a :: rest => let state' := dispatch rev state a in state' :: history rev state' rest
  end.

(** Predicates on items and actions used by the statements below. *)
Definition priceInSync (item : CartItem) : Prop :=
  totalPrice item = quantity item * unitPrice item.

Definition quantityPositive (item : CartItem) : Prop := 1 ≤ quantity item.

Definition isQuantityAction (a : Action) : Prop :=
  match a with
  | IncreaseItemQuantity _ | DecreaseItemQuantity _ => True
  | _ => False
  end.

Definition addsPositive (a : Action) : Prop :=
  match a with
  | AddItem item => quantityPositive item
  | _ => True
  end.

Definition addsInSync (a : Action) : Prop :=
  match a with
  | AddItem item => priceInSync item
  | _ => True
  end.

(** ** The menu (features/menu/MenuItem.jsx) *)

Module MenuItem.
Record Pizza : Type := mkPizza {
  id : Z;
  name : string;
  unitPrice : Z;
  ingredients : list string;
  soldOut : bool;
  imageUrl : string
}.

(** The object [handleAddToCart] builds: one unit, at the unit price. *)
Definition newItem (pizza : Pizza) : CartItem :=
  mkCartItem (id pizza) (name pizza) 1 (unitPrice pizza) (unitPrice pizza * 1).

(** [dispatch(addItem(newItem))] *)
Definition handleAddToCart (pizza : Pizza) : Action := AddItem (newItem pizza).
End MenuItem.

(** The actions the pages dispatch: an item enters the cart only through
    the add-to-cart handler of the menu. *)
Definition fromPages (a : Action) : Prop :=
  match a with
  | AddItem item => ∃ pizza, item = MenuItem.newItem pizza
  | _ => True
  end.

(** ** JavaScript values and JSON *)

(** The values the program serializes and parses.  An object is the list
    of its properties in enumeration order, which for the objects of this
    program (no index-like keys) is the order of insertion.  [undefined] is
    not among them: where a value may be undefined it is an [option JsVal]. *)
#[local] Unset Elimination Schemes.
Inductive JsVal : Type :=
| JNull
| JBool (b : bool)
| JNum (n : Z)
| JStr (s : string)
| JArr (elems : list JsVal)
| JObj (props : list (string * JsVal)).
#[local] Set Elimination Schemes.

Definition dquote : ascii := "034"%char.
Definition backslash : ascii := "092"%char.

(** The built-in [JSON] object on these values.  [stringify] is the call
    without indentation.  [parse] is a recursive-descent parser that runs on
    fuel, the length of the text plus one.  It rejects every text that is not
    JSON; it also gives up on two forms the language accepts and the model
    cannot hold, a number literal with a fraction or an exponent and a
    [\u] escape above 00ff, so the statements below rely on [parse] only
    where it succeeds. *)
Module JSON.

(** Number::toString on an integer value. *)
Definition numberToString (n : Z) : string := NilZero.string_of_int (Z.to_int n).

Definition hexDigit (n : N) : ascii :=
  if (n <? 10)%N then ascii_of_N (48 + n) else ascii_of_N (87 + n).

(** QuoteJSONString, one code unit at a time. *)
Definition quoteChar (c : ascii) : string :=
  let n := N_of_ascii c in
  if (n =? 8)%N then "\b"
  else if (n =? 9)%N then "\t"
  else if (n =? 10)%N then "\n"
  else if (n =? 12)%N then "\f"
  else if (n =? 13)%N then "\r"
  else if (n =? 34)%N then String backslash (String dquote EmptyString)
  else if (n =? 92)%N then "\\"
  else if (n <? 32)%N then
    "\u00" +:+ String (hexDigit (n / 16)) (String (hexDigit (n mod 16)) EmptyString)
  else String c EmptyString.

Fixpoint quoteBody (s : string) : string :=
  match s with
  | EmptyString => EmptyString
  | String c rest => quoteChar c +:+ quoteBody rest
  end.

Definition quote (s : string) : string :=
  String dquote (quoteBody s +:+ String dquote EmptyString).

Fixpoint stringify (v : JsVal) : string :=
  match v with
  | JNull => "null"
  | JBool true => "true"
  | JBool false => "false"
  | JNum n => numberToString n
  | JStr s => quote s
  | JArr elems => "[" +:+ String.concat "," (map stringify elems) +:+ "]"
  | JObj props =>
      "{" +:+ String.concat ","
                (map (λ kv, quote (fst kv) +:+ ":" +:+ stringify (snd kv)) props)
          +:+ "}"
  end.

(** *** JSON.parse *)

Definition isWs (c : ascii) : bool :=
  let n := N_of_ascii c in
  ((n =? 32) || (n =? 9) || (n =? 10) || (n =? 13))%N.

Fixpoint skipWs (s : string) : string :=
  match s with
  | String c rest => if isWs c then skipWs rest else s
  | EmptyString => EmptyString
  end.

Fixpoint stripPrefix (lit s : string) : option string :=
  match lit, s with
  | EmptyString, _ => Some s
  | String a lit', String b s' => if Ascii.eqb a b then stripPrefix lit' s' else None
  | String _ _, EmptyString => None
  end.

Definition digitOf (c : ascii) : option (uint → uint) :=
  match N_of_ascii c with
  | 48%N => Some D0 | 49%N => Some D1 | 50%N => Some D2 | 51%N => Some D3
  | 52%N => Some D4 | 53%N => Some D5 | 54%N => Some D6 | 55%N => Some D7
  | 56%N => Some D8 | 57%N => Some D9
  | _ => None
  end.

Fixpoint parseDigits (s : string) : uint * string :=
  match s with
  | EmptyString => (Nil, EmptyString)
  | String c rest =>
      match digitOf c with
      | Some digit => let '(d, r) := parseDigits rest in (digit d, r)
      | None => (Nil, s)
      end
  end.

(** Characters that would continue a number literal past its integer
    part: a fraction or an exponent, which the integer model leaves out. *)
Definition continuesNumber (c : ascii) : bool :=
  (Ascii.eqb c "." || Ascii.eqb c "e" || Ascii.eqb c "E")%bool.

Definition integerEnds (s : string) : bool :=
  match s with
  | EmptyString => true
  | String c _ => negb (continuesNumber c)
  end.

Definition parseNumber (s : string) : option (Z * string) :=
  let '(negative, s1) :=
    match s with
    | String c r => if Ascii.eqb c "-" then (true, r) else (false, s)
    | EmptyString => (false, s)
    end in
  let '(d, s2) := parseDigits s1 in
  let wellFormed :=
    match d with
    | Nil => false
    | D0 Nil => true
    | D0 _ => false
    | _ => true
    end in
  if (wellFormed && integerEnds s2)%bool
  then Some (Z.of_int (if negative then Neg d else Pos d), s2)
  else None.

Definition hexValue (c : ascii) : option N :=
  let n := N_of_ascii c in
  if ((48 <=? n) && (n <=? 57))%N then Some (n - 48)%N
  else if ((97 <=? n) && (n <=? 102))%N then Some (n - 87)%N
  else if ((65 <=? n) && (n <=? 70))%N then Some (n - 55)%N
  else None.

Definition hex4 (h1 h2 h3 h4 : ascii) : option N :=
  match hexValue h1, hexValue h2, hexValue h3, hexValue h4 with
  | Some a, Some b, Some c, Some d => Some (((a * 16 + b) * 16 + c) * 16 + d)%N
  | _, _, _, _ => None
  end.

(** The single-character escapes. *)
Definition unescape (e : ascii) : option ascii :=
  if Ascii.eqb e dquote then Some dquote
  else if Ascii.eqb e backslash then Some backslash
  else if Ascii.eqb e "/" then Some "/"%char
  else if Ascii.eqb e "b" then Some (ascii_of_N 8)
  else if Ascii.eqb e "f" then Some (ascii_of_N 12)
  else if Ascii.eqb e "n" then Some (ascii_of_N 10)
  else if Ascii.eqb e "r" then Some (ascii_of_N 13)
  else if Ascii.eqb e "t" then Some (ascii_of_N 9)
  else None.

(** The characters of a string literal after its opening quote, up to
    and including the closing quote. *)
Fixpoint parseStringBody (s : string) : option (string * string) :=
  match s with
  | EmptyString => None
  | String c rest =>
      if Ascii.eqb c dquote then Some (EmptyString, rest)
      else if Ascii.eqb c backslash then
        match rest with
        | EmptyString => None
        | String e rest1 =>
            match unescape e with
            | Some c' =>
                match parseStringBody rest1 with
                | Some (str, r) => Some (String c' str, r)
                | None => None
                end
            | None =>
                if Ascii.eqb e "u" then
                  match rest1 with
                  | String h1 (String h2 (String h3 (String h4 rest2))) =>
                      match hex4 h1 h2 h3 h4 with
                      | Some code =>
                          if (code <? 256)%N then
                            match parseStringBody rest2 with
                            | Some (str, r) => Some (String (ascii_of_N code) str, r)
                            | None => None
                            end
                          else None
                      | None => None
                      end
                  | _ => None
                  end
                else None
            end
        end
      else if (N_of_ascii c <? 32)%N then None
      else
        match parseStringBody rest with
        | Some (str, r) => Some (String c str, r)
        | None => None
        end
  end.

(** CreateDataProperty on an object under construction: a repeated key
    keeps its place and takes the later value. *)
Fixpoint setProp (props : list (string * JsVal)) (kv : string * JsVal)
  : list (string * JsVal) :=
  match props with
  | [] => [kv]
  | (k, v) :: rest =>
      if String.eqb k (fst kv) then (k, snd kv) :: rest
      else (k, v) :: setProp rest kv
  end.

Fixpoint parseValue (fuel : nat) (s : string) : option (JsVal * string) :=
  match fuel with
  | O => None
  | S fuel' =>
      match skipWs s with
      | EmptyString => None
      | String c rest as s' =>
          if Ascii.eqb c "n" then
            match stripPrefix "ull" rest with
            | Some r => Some (JNull, r) | None => None end
          else if Ascii.eqb c "t" then
            match stripPrefix "rue" rest with
            | Some r => Some (JBool true, r) | None => None end
          else if Ascii.eqb c "f" then
            match stripPrefix "alse" rest with
            | Some r => Some (JBool false, r) | None => None end
          else if Ascii.eqb c dquote then
            match parseStringBody rest with
            | Some (str, r) => Some (JStr str, r) | None => None end
          else if Ascii.eqb c "[" then
            match stripPrefix "]" (skipWs rest) with
            | Some r => Some (JArr [], r)
            | None =>
                match parseElements fuel' rest with
                | Some (elems, r) => Some (JArr elems, r) | None => None end
            end
          else if Ascii.eqb c "{" then
            match stripPrefix "}" (skipWs rest) with
            | Some r => Some (JObj [], r)
            | None =>
                match parseMembers fuel' rest with
                | Some (members, r) => Some (JObj (foldl setProp [] members), r)
                | None => None
                end
            end
          else
            match parseNumber s' with
            | Some (n, r) => Some (JNum n, r) | None => None end
      end
  end
with parseElements (fuel : nat) (s : string) : option (list JsVal * string) :=
  match fuel with
  | O => None
  | S fuel' =>
      match parseValue fuel' s with
      | None => None
      | Some (v, rest) =>
          match skipWs rest with
          | EmptyString => None
          | String c rest' =>
              if Ascii.eqb c "," then
                match parseElements fuel' rest' with
                | Some (vs, r) => Some (v :: vs, r) | None => None end
              else if Ascii.eqb c "]" then Some ([v], rest')
              else None
          end
      end
  end
with parseMembers (fuel : nat) (s : string) : option (list (string * JsVal) * string) :=
  match fuel with
  | O => None
  | S fuel' =>
      match stripPrefix (String dquote EmptyString) (skipWs s) with
      | None => None
      | Some afterQuote =>
          match parseStringBody afterQuote with
          | None => None
          | Some (key, afterKey) =>
              match stripPrefix ":" (skipWs afterKey) with
              | None => None
              | Some afterColon =>
                  match parseValue fuel' afterColon with
                  | None => None
                  | Some (v, rest) =>
                      match skipWs rest with
                      | EmptyString => None
                      | String c rest' =>
                          if Ascii.eqb c "," then
                            match parseMembers fuel' rest' with
                            | Some (kvs, r) => Some ((key, v) :: kvs, r)
                            | None => None
                            end
                          else if Ascii.eqb c "}" then Some ([(key, v)], rest')
                          else None
                      end
                  end
              end
          end
      end
  end.

(** [JSON.parse(text)]: one value, surrounded by optional white space,
    and nothing after it; anything else is a SyntaxError. *)
Definition parse (text : string) : Completion JsVal :=
  match parseValue (S (String.length text)) text with
  | Some (v, rest) =>
      match skipWs rest with
      | EmptyString => Normal v
      | String _ _ => Throw SyntaxError
      end
  | None => Throw SyntaxError
  end.

End JSON.

Definition JsVal_ind (P : JsVal → Prop)
    (Hnull : P JNull) (Hbool : ∀ b, P (JBool b)) (Hnum : ∀ n, P (JNum n))
    (Hstr : ∀ s, P (JStr s))
    (Harr : ∀ elems, Forall P elems → P (JArr elems))
    (Hobj : ∀ props, Forall (λ kv, P (snd kv)) props → P (JObj props))
  : ∀ v, P v :=
  fix go (v : JsVal) : P v :=
    match v with
    | JNull => Hnull
    | JBool b => Hbool b
    | JNum n => Hnum n
    | JStr s => Hstr s
    | JArr elems =>
        Harr elems
          ((fix all (l : list JsVal) : Forall P l :=
              match l with
              | [] => @List.Forall_nil _ P
              | x :: rest => @List.Forall_cons _ P x rest (go x) (all rest)
              end) elems)
    | JObj props =>
        Hobj props
          ((fix all (l : list (string * JsVal)) : Forall (λ kv, P (snd kv)) l :=
              match l with
              | [] => @List.Forall_nil _ (λ kv, P (snd kv))
              | kv :: rest => @List.Forall_cons _ (λ kv, P (snd kv)) kv rest (go (snd kv)) (all rest)
              end) props)
    end.

(** Values whose objects name each property once. *)
Fixpoint uniqueKeys (v : JsVal) : Prop :=
  match v with
  | JArr elems => fold_right (λ x acc, uniqueKeys x ∧ acc) True elems
  | JObj props =>
      NoDup (fst <$> props) ∧
      fold_right (λ kv acc, uniqueKeys (snd kv) ∧ acc) True props
  | _ => True
  end.

(** ** Regular expressions (the constructs the phone pattern uses) *)

Inductive Regex : Type :=
| ReNone                                   (* matches nothing *)
| ReEmpty                                  (* the empty string *)
| ReClass (member : ascii → bool)          (* one character of a class *)
| ReSeq (r1 r2 : Regex)
| ReAlt (r1 r2 : Regex).

(** The quantifiers of the pattern, as derived forms: [r?], up to [n]
    copies of [r], and between [lo] and [lo + extra] copies.  A lazy
    quantifier ([{1,4}?]) accepts the same strings as the greedy one, and
    [test] only asks whether a match exists. *)
Definition ReOpt (r : Regex) : Regex := ReAlt ReEmpty r.

Fixpoint ReUpTo (n : nat) (r : Regex) : Regex :=
  match n with
  | O => ReEmpty
  | S n' => ReOpt (ReSeq r (ReUpTo n' r))
  end.

Fixpoint ReRepeat (lo extra : nat) (r : Regex) : Regex :=
  match lo with
  | O => ReUpTo extra r
  | S lo' => ReSeq r (ReRepeat lo' extra r)
  end.

(** [r{lo,hi}] *)
Definition ReRange (lo hi : nat) (r : Regex) : Regex := ReRepeat lo (hi - lo) r.

Definition ReChar (c : ascii) : Regex := ReClass (Ascii.eqb c).

Fixpoint nullable (r : Regex) : bool :=
  match r with
  | ReNone => false
  | ReEmpty => true
  | ReClass _ => false
  | ReSeq r1 r2 => nullable r1 && nullable r2
  | ReAlt r1 r2 => nullable r1 || nullable r2
  end.

Fixpoint derive (c : ascii) (r : Regex) : Regex :=
  match r with
  | ReNone => ReNone
  | ReEmpty => ReNone
  | ReClass member => if member c then ReEmpty else ReNone
  | ReSeq r1 r2 =>
      if nullable r1 then ReAlt (ReSeq (derive c r1) r2) (derive c r2)
      else ReSeq (derive c r1) r2
  | ReAlt r1 r2 => ReAlt (derive c r1) (derive c r2)
  end.

(** [/^r$/.test(s)] *)
Fixpoint matchesWhole (r : Regex) (s : string) : bool :=
  match s with
  | EmptyString => nullable r
  | String c rest => matchesWhole (derive c r) rest
  end.

Definition isDigitChar (c : ascii) : bool :=
  let n := N_of_ascii c in ((48 <=? n) && (n <=? 57))%N.

(** [\s] on code units below 256. *)
Definition isSpaceChar (c : ascii) : bool :=
  let n := N_of_ascii c in
  (((9 <=? n) && (n <=? 13)) || (n =? 32) || (n =? 160))%N.

Definition isSeparatorChar (c : ascii) : bool :=
  (Ascii.eqb c "-" || Ascii.eqb c "." || isSpaceChar c)%bool.

Definition digit : Regex := ReClass isDigitChar.
Definition separator : Regex := ReClass isSeparatorChar.

(** The pattern of [isValidPhone], piece by piece:
    [^\+?\d{1,4}?[-.\s]?\(?\d{1,3}?\)?[-.\s]?\d{1,4}[-.\s]?\d{1,4}[-.\s]?\d{1,9}$] *)
Definition phonePattern : Regex :=
  ReSeq (ReOpt (ReChar "+"))
 (ReSeq (ReRange 1 4 digit)
 (ReSeq (ReOpt separator)
 (ReSeq (ReOpt (ReChar "("))
 (ReSeq (ReRange 1 3 digit)
 (ReSeq (ReOpt (ReChar ")"))
 (ReSeq (ReOpt separator)
 (ReSeq (ReRange 1 4 digit)
 (ReSeq (ReOpt separator)
 (ReSeq (ReRange 1 4 digit)
 (ReSeq (ReOpt separator)
        (ReRange 1 9 digit))))))))))).

(** [const isValidPhone = (str) => /.../.test(str)] *)
Definition isValidPhone (str : string) : bool := matchesWhole phonePattern str.

(** What it means for a string to match, independently of the matcher. *)
Inductive Matches : Regex → string → Prop :=
| MatchEmpty : Matches ReEmpty EmptyString
| MatchClass member c : member c = true → Matches (ReClass member) (String c EmptyString)
| MatchSeq r1 r2 s1 s2 :
    Matches r1 s1 → Matches r2 s2 → Matches (ReSeq r1 r2) (s1 +:+ s2)
| MatchAltL r1 r2 s : Matches r1 s → Matches (ReAlt r1 r2) s
| MatchAltR r1 r2 s : Matches r2 s → Matches (ReAlt r1 r2) s.

(** The shortest string a pattern accepts. *)
Fixpoint minLength (r : Regex) : option nat :=
  match r with
  | ReNone => None
  | ReEmpty => Some 0%nat
  | ReClass _ => Some 1%nat
  | ReSeq r1 r2 =>
      match minLength r1, minLength r2 with
      | Some a, Some b => Some (a + b)%nat
      | _, _ => None
      end
  | ReAlt r1 r2 =>
      match minLength r1, minLength r2 with
      | Some a, Some b => Some (Nat.min a b)
      | Some a, None => Some a
      | None, o => o
      end
  end.

(** ** Reading JavaScript values *)

(** The first property of that name. *)
Fixpoint lookupProp (key : string) (props : list (string * JsVal)) : option JsVal :=
  match props with
  | [] => None
  | (k, v) :: rest => if String.eqb k key then Some v else lookupProp key rest
  end.

(** [value.key] (also as the destructuring [const { key } = value]), for a
    [key] that no built-in prototype defines ([data], [id]); [None] stands
    for [undefined].  Reading a property of [undefined] or [null] throws. *)
Definition getProperty (value : option JsVal) (key : string) : Completion (option JsVal) :=
  match value with
  | None | Some JNull => Throw TypeError
  | Some (JObj props) => Normal (lookupProp key props)
  | Some _ => Normal None
  end.

(** ToString, as a template literal or [RegExp.prototype.test] applies it. *)
Fixpoint toStringValue (v : JsVal) : string :=
  match v with
  | JNull => "null"
  | JBool true => "true"
  | JBool false => "false"
  | JNum n => JSON.numberToString n
  | JStr s => s
  | JArr elems =>
      String.concat ","
        (map (λ x, match x with JNull => EmptyString | _ => toStringValue x end) elems)
  | JObj _ => "[object Object]"
  end.

Definition toString (value : option JsVal) : string :=
  match value with
  | None => "undefined"
  | Some v => toStringValue v
  end.

(** ** Cart items as JavaScript objects *)

(** The object a cart item is, with its properties in the order the code
    writes them. *)
Definition itemToJs (item : CartItem) : JsVal :=
  JObj [("pizzaId", JNum (pizzaId item)); ("name", JStr (name item));
        ("quantity", JNum (quantity item)); ("unitPrice", JNum (unitPrice item));
        ("totalPrice", JNum (totalPrice item))].

Definition cartToJs (items : list CartItem) : JsVal := JArr (itemToJs <$> items).

Definition numberProp (key : string) (props : list (string * JsVal)) : option Z :=
  match lookupProp key props with Some (JNum n) => Some n | _ => None end.

Definition stringProp (key : string) (props : list (string * JsVal)) : option string :=
  match lookupProp key props with Some (JStr s) => Some s | _ => None end.

(** The defined fields of a cart item, read off a parsed value. *)
Definition itemOfJs (v : JsVal) : option CartItem :=
  match v with
  | JObj props =>
      match numberProp "pizzaId" props, stringProp "name" props,
            numberProp "quantity" props, numberProp "unitPrice" props,
            numberProp "totalPrice" props with
      | Some i, Some n, Some q, Some u, Some t => Some (mkCartItem i n q u t)
      | _, _, _, _, _ => None
      end
  | _ => None
  end.

Definition cartOfJs (v : JsVal) : option (list CartItem) :=
  match v with
  | JArr elems => mapM itemOfJs elems
  | _ => None
  end.

(** ** The network *)

Record Request : Type := mkRequest {
  url : string;
  method : string;
  headers : list (string * string);
  body : option string
}.

(** What [fetch] settles to: a rejection, or a response with its status
    and the text of its body. *)
Inductive FetchResult : Type :=
| NetworkError
| HttpResponse (status : Z) (text : string).

Record Response : Type := mkResponse { status : Z; text : string }.

(** What the program runs in: how the API answers a request, the requests
    sent so far, and the state of the Redux store. *)
Record World : Type := mkWorld {
  respond : Request → FetchResult;
  sent : list Request;
  store : RootState
}.

(** Computations that may throw and may use the network. *)
Definition IO (A : Type) : Type := World → Completion A * World.

Definition ret {A} (a : A) : IO A := λ w, (Normal a, w).

Definition throw {A} (e : Thrown) : IO A := λ w, (Throw e, w).

Definition bind {A B} (m : IO A) (k : A → IO B) : IO B :=
  λ w, match m w with
       | (Normal a, w') => k a w'
       | (Throw e, w') => (Throw e, w')
       end.

Definition lift {A} (c : Completion A) : IO A := λ w, (c, w).

(** [try { m } catch { handler }] *)
Definition tryCatch {A} (m : IO A) (handler : Thrown → IO A) : IO A :=
  λ w, match m w with
       | (Normal a, w') => (Normal a, w')
       | (Throw e, w') => handler e w'
       end.

Notation "x <~ m ;; k" := (bind m (λ x, k))
  (at level 100, m at next level, right associativity).

(** [await fetch(url, options)]: the request goes out; a network failure
    rejects with a TypeError. *)
Definition fetch (request : Request) : IO Response :=
  λ w,
    let w' := {| respond := respond w; sent := sent w ++ [request];
                 store := store w |} in
    match respond w request with
    | NetworkError => (Throw TypeError, w')
    | HttpResponse st tx => (Normal {| status := st; text := tx |}, w')
    end.

(** [res.ok]: a status in the range 200-299. *)
Definition ok (res : Response) : bool :=
  bool_decide (200 ≤ status res ≤ 299).

(** [await res.json()] *)
Definition json (res : Response) : IO JsVal := lift (JSON.parse (text res)).

(** The outcome of an action: the field errors handed back to the form, or
    the response built by [redirect(location)]. *)
Inductive ActionResult : Type :=
| FieldErrors (errors : gmap string string)
| Redirect (location : string).

Definition phoneMessage : string :=
  "Please give us your correct phone number. We might need it to contact you".

(** [Object.fromEntries(formData)] *)
Definition fromEntries (entries : list (string * string)) : list (string * JsVal) :=
  foldl JSON.setProp [] ((λ kv, (fst kv, JStr (snd kv))) <$> entries).

(** The object literal
    [{ ...data, cart: JSON.parse(data.cart), priority: data.priority === "on" }]. *)
Definition assembleOrder (data : list (string * JsVal)) : Completion (list (string * JsVal)) :=
  match JSON.parse (toString (lookupProp "cart" data)) with
  | Throw e => Throw e
  | Normal parsedCart =>
      let priority :=
        match lookupProp "priority" data with
        | Some (JStr s) => String.eqb s "on"
        | _ => false
        end in
      Normal (JSON.setProp (JSON.setProp data ("cart", parsedCart))
                           ("priority", JBool priority))
  end.

Section Services.
(** The base address of the restaurant API, a constant of
    services/apiRestaurant.js. *)
Variable API_URL : string.

Definition getOrder (id : string) : IO (option JsVal) :=
  res <~ fetch {| url := API_URL +:+ "/order/" +:+ id; method := "GET";
                  headers := []; body := None |} ;;
  if negb (ok res) then throw (Error ("Couldn't find order #" +:+ id))
  else
    parsed <~ json res ;;
    data <~ lift (getProperty (Some parsed) "data") ;;
    ret data.

Definition createOrder (newOrder : JsVal) : IO (option JsVal) :=
  tryCatch
    (res <~ fetch {| url := API_URL +:+ "/order"; method := "POST";
                     headers := [("Content-Type", "application/json")];
                     body := Some (JSON.stringify newOrder) |} ;;
     if negb (ok res) then throw (Error EmptyString)
     else
       parsed <~ json res ;;
       data <~ lift (getProperty (Some parsed) "data") ;;
       ret data)
    (λ _, throw (Error "Failed creating your order")).

(** loader/orderLoader.jsx *)
Record LoaderArgs : Type := { orderId : string }.

Definition OrderLoader (params : LoaderArgs) : IO (option JsVal) :=
  order <~ getOrder (orderId params) ;;
  ret order.

(** The route action of /order/new, on the entries of
    [await request.formData()]. *)
Definition createOrderAction (formData : list (string * string)) : IO ActionResult :=
  let data := fromEntries formData in
  order <~ lift (assembleOrder data) ;;
  let errors : gmap string string :=
    if negb (isValidPhone (toString (lookupProp "phone" order)))
    then <["phone" := phoneMessage]> ∅
    else ∅ in
  if bool_decide (0 < size errors)%nat then ret (FieldErrors errors)
  else
    newOrder <~ createOrder (JObj order) ;;
    id <~ lift (getProperty newOrder "id") ;;
    ret (Redirect ("/order/" +:+ toString id)).
End Services.

(** ** The order form (features/order/CreateOrder.jsx) *)

Definition fakeCart : list CartItem :=
  [ mkCartItem 12 "Mediterranean" 2 16 32;
    mkCartItem 6 "Vegetale" 1 13 13;
    mkCartItem 11 "Spinach and Mushroom" 1 15 15 ].

(** What the customer does with the form before pressing the button: the
    name is prefilled and may be replaced, phone and address are typed, the
    priority box is ticked or not. *)
Record Typed : Type := mkTyped {
  typedCustomer : option string;
  typedPhone : string;
  typedAddress : string;
  tickedPriority : bool
}.

(** The value of the hidden input: [JSON.stringify(cart)]. *)
Definition hiddenCart (items : list CartItem) : string :=
  JSON.stringify (cartToJs items).

(** The entries of the submitted form, in the order of its controls, for the
    cart the component holds; an unticked checkbox contributes no entry. *)
Definition formEntries (defaultName : string) (items : list CartItem) (typed : Typed)
  : list (string * string) :=
  [("customer", default defaultName (typedCustomer typed));
   ("phone", typedPhone typed);
   ("address", typedAddress typed)]
  ++ (if tickedPriority typed then [("priority", "on")] else [])
  ++ [("cart", hiddenCart items)].

(** The component: [username] comes from the store, [const cart = fakeCart]. *)
Definition CreateOrder (state : RootState) (typed : Typed) : list (string * string) :=
  let username := username (userSlice state) in
  let cart := fakeCart in
  formEntries username cart typed.

(** Pressing the button: the form is rendered from the current state of
    the store and the router hands its entries to the route action. *)
Definition submitOrder (API_URL : string) (typed : Typed) : IO ActionResult :=
  λ w, createOrderAction API_URL (CreateOrder (store w) typed) w.

(** [store.dispatch(action)] on a cart action: the cart slice moves to what
    the reducer returns; an exception of the reducer reaches the caller and
    the state stays. *)
Definition dispatchCart (rev : Revision) (action : Action) : IO unit :=
  λ w,
    match cartReducer rev (cartSlice (store w)) action with
    | Normal cartState' =>
        (Normal tt,
         {| respond := respond w; sent := sent w;
            store := {| userSlice := userSlice (store w);
                        cartSlice := cartState' |} |})
    | Throw e => (Throw e, w)
    end.

(** ** Notions used by the statements *)

(** What a quantity reducer may change between the old and the new cart:
    nothing but the [quantity] (by [delta]) and the [totalPrice] of the item
    at position [i]. *)
Definition onlyQuantityChanged (delta : Z) (i : nat) (old new : list CartItem) : Prop :=
  length new = length old ∧
  (∀ j, j ≠ i → new !! j = old !! j) ∧
  ∃ item item',
    old !! i = Some item ∧ new !! i = Some item' ∧
    pizzaId item' = pizzaId item ∧ name item' = name item ∧
    unitPrice item' = unitPrice item ∧
    quantity item' = quantity item + delta ∧
    totalPrice item' = quantity item' * unitPrice item'.

(** ** Notions used to state the round trip of JSON texts *)

(** The fuel a value needs to be parsed back. *)
Fixpoint weight (v : JsVal) : nat :=
  match v with
  | JArr elems => S (fold_right (λ x acc, S (weight x + acc)) 0%nat elems)
  | JObj props => S (fold_right (λ kv acc, S (weight (snd kv) + acc)) 0%nat props)
  | _ => 1%nat
  end.

Definition weights (elems : list JsVal) : nat :=
  fold_right (λ x acc, S (weight x + acc)) 0%nat elems.

Definition propWeights (props : list (string * JsVal)) : nat :=
  fold_right (λ kv acc, S (weight (snd kv) + acc)) 0%nat props.

(** What may follow a serialized value: the end of the text or a character
    that cannot extend a number literal. *)
Definition delimited (rest : string) : Prop :=
  match rest with
  | EmptyString => True
  | String c _ => JSON.digitOf c = None ∧ JSON.continuesNumber c = false
  end.

(** A value is read back from its own text, whatever follows it. *)
Definition RoundTrips (v : JsVal) : Prop :=
  ∀ fuel rest, uniqueKeys v → (weight v ≤ fuel)%nat → delimited rest →
    JSON.parseValue fuel (JSON.stringify v +:+ rest) = Some (v, rest).

(** The characters a number literal starts with. *)
Definition startsNumber (c : ascii) : Prop := c = "-"%char ∨ is_Some (JSON.digitOf c).

(** The text of one member of an object. *)
Definition memberText (kv : string * JsVal) : string :=
  JSON.quote (fst kv) +:+ ":" +:+ JSON.stringify (snd kv).

(** The world after one more request. *)
Definition afterRequest (w : World) (request : Request) : World :=
  {| respond := respond w; sent := sent w ++ [request]; store := store w |}.

(** The requests of the two services. *)
Definition createOrderRequest (API_URL : string) (newOrder : JsVal) : Request :=
  {| url := API_URL +:+ "/order"; method := "POST";
     headers := [("Content-Type", "application/json")];
     body := Some (JSON.stringify newOrder) |}.

Definition getOrderRequest (API_URL : string) (id : string) : Request :=
  {| url := API_URL +:+ "/order/" +:+ id; method := "GET";
     headers := []; body := None |}.

(** The one message every failure of createOrder carries. *)
Definition creationFailed : Thrown := Error "Failed creating your order".

(** The only field-error map the action builds. *)
Definition phoneErrors : gmap string string := <["phone" := phoneMessage]> ∅.

(** The string the phone pattern is tested on. *)
Definition phoneText (formData : list (string * string)) : string :=
  toString (lookupProp "phone" (fromEntries formData)).

(** The order object assembled from the entries of the order form. *)
Definition formOrder (defaultName : string) (items : list CartItem) (typed : Typed)
  : list (string * JsVal) :=
  [("customer", JStr (default defaultName (typedCustomer typed)));
   ("phone", JStr (typedPhone typed));
   ("address", JStr (typedAddress typed))]
  ++ (if tickedPriority typed then [("priority", JBool true)] else [])
  ++ [("cart", cartToJs items)]
  ++ (if tickedPriority typed then [] else [("priority", JBool false)]).

(** ** Sample data of the scenarios *)

Definition sampleUrl : string := "https://api.example/api".

Definition sampleCartState : CartState := {| cart := fakeCart |}.

Definition margherita : MenuItem.Pizza :=
  MenuItem.mkPizza 1 "Margherita" 12 ["tomato"; "mozzarella"; "basil"] false
    "pizza-1.jpg".

(** Add a Margherita, raise it to two, take both away again, then try to
    take one more. *)
Definition sampleSession : list Action :=
  [MenuItem.handleAddToCart margherita; IncreaseItemQuantity 1;
   DecreaseItemQuantity 1; DecreaseItemQuantity 1; DecreaseItemQuantity 1].

(** The same pizza chosen twice on the menu: a Margherita is added, raised
    to two, and added once more, which gives a second line. *)
Definition repeatedSession : list Action :=
  [MenuItem.handleAddToCart margherita; IncreaseItemQuantity 1;
   MenuItem.handleAddToCart margherita].

Definition repeatedCart : CartState :=
  {| cart := [mkCartItem 1 "Margherita" 2 12 24; mkCartItem 1 "Margherita" 1 12 12] |}.

(** A store whose cart differs from the sample cart of the form. *)
Definition margheritaStore : RootState :=
  {| userSlice := {| username := "Ana" |};
     cartSlice := {| cart := [mkCartItem 1 "Margherita" 1 12 12] |} |}.

Definition sampleTyped (phone : string) : Typed :=
  {| typedCustomer := None; typedPhone := phone;
     typedAddress := "1 Main St"; tickedPriority := false |}.

(** A store whose cart holds the sample cart. *)
Definition filledStore : RootState :=
  {| userSlice := {| username := "Ana" |}; cartSlice := sampleCartState |}.

(** An API that answers every request with the given status and body, and
    the store of a customer with a Margherita in the cart. *)
Definition answering (st : Z) (answer : JsVal) : World :=
  {| respond := λ _, HttpResponse st (JSON.stringify answer); sent := [];
     store := margheritaStore |}.

Definition offline : World :=
  {| respond := λ _, NetworkError; sent := []; store := margheritaStore |}.

(** The same API, with the sample cart in the store. *)
Definition answeringFilled (st : Z) (answer : JsVal) : World :=
  {| respond := λ _, HttpResponse st (JSON.stringify answer); sent := [];
     store := filledStore |}.

Definition createdAnswer : JsVal :=
  JObj [("status", JStr "success");
        ("data", JObj [("id", JStr "ORD-1"); ("status", JStr "preparing")])].

Definition failedAnswer : JsVal :=
  JObj [("status", JStr "fail"); ("message", JStr "no such order")].

(** An API whose answer is not JSON. *)
Definition garbled : World :=
  {| respond := λ _, HttpResponse 200 "<html>Bad gateway</html>"; sent := [];
     store := margheritaStore |}.

(** A submission whose phone is too short and whose cart field is not JSON. *)
Definition brokenEntries : list (string * string) :=
  [("customer", "Ana"); ("phone", "123"); ("address", "1 Main St");
   ("cart", "[oops")].

(** The order of the sample customer, as the action assembles it. *)
Definition sampleOrder : JsVal :=
  JObj (formOrder "Ana" fakeCart (sampleTyped "+15551234567")).

(** ** Further selectors and the cart overview *)

(** [state.cart.cart.length] *)
Definition getUniqueItemsCount (state : RootState) : Z :=
  Z.of_nat (length (cart (cartSlice state))).

(** features/cart/CartOverview.jsx: [null] when [!totalCartQuantity],
    otherwise the two totals it displays. *)
Definition renderCartOverview (state : RootState) : option (Z * Z) :=
  let totalCartQuantity := CartSlice.getTotalCartQuantity state in
  let totalCartPrice := CartSlice.getTotalCartPrice state in
  if bool_decide (totalCartQuantity = 0) then None
  else Some (totalCartQuantity, totalCartPrice).

(** ** The user slice (features/user/userSlice.js) and CreateUser.jsx *)

Module UserSlice.
Definition initialState : UserState := {| username := EmptyString |}.

(** [state.username = action.payload] *)
Definition updateName (state : UserState) (payload : string) : UserState :=
  {| username := payload |}.

Definition selectUsername (state : RootState) : string := username (userSlice state).

Definition selectIsLoggedIn (state : RootState) : bool :=
  negb (String.eqb (username (userSlice state)) EmptyString).
End UserSlice.

(** [dispatch(updateName(payload))] on the store: the user slice moves, the
    cart reducer returns its state for an action that is not its own. *)
Definition dispatchUpdateName (payload : string) : IO unit :=
  λ w,
    (Normal tt,
     {| respond := respond w; sent := sent w;
        store := {| userSlice := UserSlice.updateName (userSlice (store w)) payload;
                    cartSlice := cartSlice (store w) |} |}).

Module CreateUser.
(** [handleSubmit] for the [username] held by the input; the result is the
    route handed to [navigate], if it was called. *)
Definition handleSubmit (username : string) : IO (option string) :=
  if String.eqb username EmptyString then ret None
  else
    _ <~ dispatchUpdateName username ;;
    ret (Some "/menu").
End CreateUser.

(** features/user/Username.jsx: [null] when [!username]. *)
Definition renderUsername (state : RootState) : option string :=
  let username := username (userSlice state) in
  if String.eqb username EmptyString then None else Some username.

(** ** The menu service and its loader *)

Module ApiRestaurant.
Definition API_URL : string := "https://react-fast-pizza-api.jonas.io/api".

Definition getMenu : IO (option JsVal) :=
  res <~ fetch {| url := API_URL +:+ "/menu"; method := "GET";
                  headers := []; body := None |} ;;
  if negb (ok res) then throw (Error "Failed getting menu")
  else
    parsed <~ json res ;;
    data <~ lift (getProperty (Some parsed) "data") ;;
    ret data.

Definition menuLoader : IO (option JsVal) :=
  menu <~ getMenu ;;
  ret menu.
End ApiRestaurant.

(** ** The route action before the phone guard, and with field validation *)

Module ActionLesson.
(** [createOrderAction] as first written: the order is assembled and sent. *)
Definition createOrderAction (API_URL : string) (formData : list (string * string))
  : IO ActionResult :=
  let data := fromEntries formData in
  order <~ lift (assembleOrder data) ;;
  newOrder <~ createOrder API_URL (JObj order) ;;
  id <~ lift (getProperty newOrder "id") ;;
  ret (Redirect ("/order/" +:+ toString id)).
End ActionLesson.

(** [data.key] for the object built from the entries of a form of text
    fields: a string, or [None] for [undefined]. *)
Definition field (key : string) (formData : list (string * string)) : option string :=
  match lookupProp key (fromEntries formData) with
  | Some (JStr s) => Some s
  | _ => None
  end.

(** [!value] for a string or [undefined]. *)
Definition isFalsy (value : option string) : bool :=
  match value with
  | None => true
  | Some s => String.eqb s EmptyString
  end.

(** [value.length], in code units; reading it on [undefined] throws. *)
Definition lengthOf (value : option string) : Completion Z :=
  match value with
  | None => Throw TypeError
  | Some s => Normal (Z.of_nat (String.length s))
  end.

Module FormValidation.
(** [createOrderAction] of the section on form validation: the three
    checks fill [errors], and the order is assembled only if it stays
    empty. *)
Definition createOrderAction (API_URL : string) (formData : list (string * string))
  : IO ActionResult :=
  let data := fromEntries formData in
  let errors : gmap string string := ∅ in
  let errors :=
    if isFalsy (field "customer" formData)
    then <["customer" := "Name is required"]> errors else errors in
  let errors :=
    if isFalsy (field "phone" formData)
    then <["phone" := "Phone is required"]> errors else errors in
  phoneLength <~ lift (lengthOf (field "phone" formData)) ;;
  let errors :=
    if bool_decide (phoneLength < 10)
    then <["phone" := "Phone must be at least 10 digits"]> errors else errors in
  if bool_decide (0 < size errors)%nat then ret (FieldErrors errors)
  else
    order <~ lift (assembleOrder data) ;;
    newOrder <~ createOrder API_URL (JObj order) ;;
    id <~ lift (getProperty newOrder "id") ;;
    ret (Redirect ("/order/" +:+ toString id)).
End FormValidation.

(** ** Notions used by the further statements *)

(** The store after a cart action went through [store.dispatch]: the user
    reducer returns its state for an action that is not its own. *)
Definition storeAfter (rev : Revision) (state : RootState) (action : Action) : RootState :=
  {| userSlice := userSlice state;
     cartSlice := dispatch rev (cartSlice state) action |}.

(** The sum of a number over the items of a cart. *)
Definition sumOver (f : CartItem → Z) (items : list CartItem) : Z :=
  foldr (λ item acc, f item + acc) 0 items.

(** A property whose value is a string. *)
Definition isText (kv : string * JsVal) : Prop := ∃ s, snd kv = JStr s.

Definition getMenuRequest : Request :=
  {| url := ApiRestaurant.API_URL +:+ "/menu"; method := "GET";
     headers := []; body := None |}.

(** The characters a pattern can consume. *)
Fixpoint alphabet (r : Regex) (c : ascii) : bool :=
  match r with
  | ReNone | ReEmpty => false
  | ReClass member => member c
  | ReSeq r1 r2 | ReAlt r1 r2 => alphabet r1 c || alphabet r2 c
  end.

(** The longest string a pattern accepts (every pattern here is finite). *)
Fixpoint maxLength (r : Regex) : nat :=
  match r with
  | ReNone | ReEmpty => 0%nat
  | ReClass _ => 1%nat
  | ReSeq r1 r2 => (maxLength r1 + maxLength r2)%nat
  | ReAlt r1 r2 => Nat.max (maxLength r1) (maxLength r2)
  end.

Fixpoint allChars (P : ascii → bool) (s : string) : bool :=
  match s with
  | EmptyString => true
  | String c rest => P c && allChars P rest
  end.

(** The characters of a phone number: digits, [+], the two parentheses,
    and the separators. *)
Definition isPhoneChar (c : ascii) : bool :=
  isDigitChar c || isSeparatorChar c || Ascii.eqb c "+" || Ascii.eqb c "("
  || Ascii.eqb c ")".

(** * Properties *)

Lemma bumpQuantity_inSync delta item : priceInSync (bumpQuantity delta item).
Proof. reflexivity. Qed.

Lemma findItem_Some id items i item :
  findItem id items = Some (i, item) →
  items !! i = Some item ∧ pizzaId item = id ∧
  ∀ j other, items !! j = Some other → (j < i)%nat → pizzaId other ≠ id.
Proof. unfold findItem. rewrite list_find_Some. tauto. Qed.

Lemma findItem_present id items :
  (∃ item, item ∈ items ∧ pizzaId item = id) →
  ∃ i item, findItem id items = Some (i, item).
Proof.
  intros (item & Hin & Hid).
  destruct (list_find_elem_of (λ x, pizzaId x = id) items item Hin Hid)
    as [[i found] Hfind].
  by exists i, found.
Qed.

Lemma findItem_absent id items :
  (∀ item, item ∈ items → pizzaId item ≠ id) → findItem id items = None.
Proof.
  intros Habs. unfold findItem. apply list_find_None.
  apply Forall_forall. exact Habs.
Qed.

Lemma elem_of_insert_inv {A} (l : list A) i x y :
  y ∈ <[i := x]> l → y = x ∨ y ∈ l.
Proof.
  intros Hy. apply list_elem_of_lookup in Hy as [j Hj].
  apply list_lookup_insert_Some in Hj as [(_ & -> & _) | (_ & Hj)].
  - by left.
  - right. by eapply list_elem_of_lookup_2.
Qed.

(** One successful quantity step: an item of the new cart is either in sync
    or an item the step did not write, taken over from the old cart. *)
Lemma quantity_step_fresh rev state a state' :
  isQuantityAction a → cartReducer rev state a = Normal state' →
  ∀ item, item ∈ cart state' → priceInSync item ∨ item ∈ cart state.
Proof.
  intros Hq Hstep item Hin.
  destruct a as [? | ? | id | id | ]; try done; simpl in Hstep.
  - unfold CartSlice.increaseItemQuantity in Hstep.
    destruct (findItem id (cart state)) as [[i found]|]; [|done].
    injection Hstep as <-. simpl in Hin.
    apply elem_of_insert_inv in Hin as [-> | Hin]; [left | by right].
    apply bumpQuantity_inSync.
  - destruct rev; simpl in Hstep.
    + unfold CartSlice.decreaseItemQuantity in Hstep.
      destruct (findItem id (cart state)) as [[i found]|]; [|done].
      injection Hstep as <-. simpl in Hin.
      apply elem_of_insert_inv in Hin as [-> | Hin]; [left | by right].
      apply bumpQuantity_inSync.
    + unfold UpdatingQuantities.decreaseItemQuantity in Hstep.
      destruct (findItem id (cart state)) as [[i found]|]; [|done].
      simpl in Hstep. case_decide.
      * injection Hstep as <-. simpl in Hin.
        apply list_elem_of_filter in Hin as [_ Hin].
        apply elem_of_insert_inv in Hin as [-> | Hin]; [left | by right].
        apply bumpQuantity_inSync.
      * injection Hstep as <-. simpl in Hin.
        apply elem_of_insert_inv in Hin as [-> | Hin]; [left | by right].
        apply bumpQuantity_inSync.
Qed.

Lemma Forall_filter_keep {A} (P Q : A → Prop) `{∀ x, Decision (Q x)} (l : list A) :
  Forall P l → Forall P (filter Q l).
Proof.
  rewrite !Forall_forall. intros Hl x Hx.
  apply list_elem_of_filter in Hx as [_ Hx]. by apply Hl.
Qed.

Lemma dispatch_keeps_inSync rev state a :
  addsInSync a → Forall priceInSync (cart state) →
  Forall priceInSync (cart (dispatch rev state a)).
Proof.
  intros Ha Hinv. unfold dispatch.
  destruct (cartReducer rev state a) as [state'|] eqn:Hstep; [|done].
  destruct a as [item | id | id | id | ]; simpl in Hstep.
  - injection Hstep as <-. apply Forall_app. split; [done|]. by constructor.
  - injection Hstep as <-. by apply Forall_filter_keep.
  - apply Forall_forall. intros item Hin.
    destruct (quantity_step_fresh rev state (IncreaseItemQuantity id) state' I Hstep
                item Hin) as [|Hold]; [done|].
    by eapply Forall_forall in Hinv.
  - apply Forall_forall. intros item Hin.
    destruct (quantity_step_fresh rev state (DecreaseItemQuantity id) state' I Hstep
                item Hin) as [|Hold]; [done|].
    by eapply Forall_forall in Hinv.
  - injection Hstep as <-. constructor.
Qed.

(** A property of the items that every allowed action preserves holds in
    every state of a history. *)
Section HistoryInvariant.
Variable rev : Revision.
Variable Inv : CartItem → Prop.
Variable allowed : Action → Prop.
Hypothesis preserved :
  ∀ state a, allowed a → Forall Inv (cart state) →
             Forall Inv (cart (dispatch rev state a)).

Lemma history_invariant actions :
  ∀ state, Forall allowed actions → Forall Inv (cart state) →
           Forall (λ s, Forall Inv (cart s)) (history rev state actions).
Proof.
  induction actions as [|a rest IH]; intros state Hacts Hinv; simpl.
  - constructor.
  - inversion Hacts as [|? ? Ha Hrest]; subst.
    pose proof (preserved state a Ha Hinv) as Hnext.
    constructor; [done|]. by apply IH.
Qed.
End HistoryInvariant.

Lemma newItem_inSync pizza : priceInSync (MenuItem.newItem pizza).
Proof. unfold priceInSync. simpl. lia. Qed.

Lemma newItem_positive pizza : quantityPositive (MenuItem.newItem pizza).
Proof. unfold quantityPositive. simpl. lia. Qed.

Lemma fromPages_inSync a : fromPages a → addsInSync a.
Proof. destruct a; simpl; try done. intros [pizza ->]. apply newItem_inSync. Qed.

Lemma fromPages_positive a : fromPages a → addsPositive a.
Proof. destruct a; simpl; try done. intros [pizza ->]. apply newItem_positive. Qed.

Lemma quantityAction_inSync a : isQuantityAction a → addsInSync a.
Proof. by destruct a. Qed.

(** C1. Quantity-price invariant: a successful increaseItemQuantity or
    decreaseItemQuantity leaves in the cart only items whose totalPrice equals
    quantity * unitPrice or items it took over unchanged from the old cart;
    hence, from a cart whose items are in sync, after each operation of any
    sequence of increase/decrease operations every item still present has
    totalPrice = quantity * unitPrice (in both revisions of the slice); and
    this holds in every state reached from the empty cart by the actions of
    the pages. *)
Theorem quantity_price_invariant :
  (∀ rev state a state',
      isQuantityAction a → cartReducer rev state a = Normal state' →
      ∀ item, item ∈ cart state' → priceInSync item ∨ item ∈ cart state)
  ∧ (∀ rev state actions,
      Forall isQuantityAction actions → Forall priceInSync (cart state) →
      Forall (λ s, Forall priceInSync (cart s)) (history rev state actions))
  ∧ (∀ rev actions,
      Forall fromPages actions →
      Forall (λ s, Forall priceInSync (cart s)) (history rev initialState actions)).
Proof.
  split; [exact quantity_step_fresh|]. split.
  - intros rev state actions Hacts Hinv.
    apply (history_invariant rev priceInSync addsInSync); [| |done].
    + apply dispatch_keeps_inSync.
    + eapply Forall_impl; [done | apply quantityAction_inSync].
  - intros rev actions Hacts.
    apply (history_invariant rev priceInSync addsInSync); [| |by constructor].
    + apply dispatch_keeps_inSync.
    + eapply Forall_impl; [done | apply fromPages_inSync].
Qed.

(** ** Lookup of the target item *)

Lemma increase_unfold state id :
  CartSlice.increaseItemQuantity state id =
  match findItem id (cart state) with
  | None => Throw TypeError
  | Some (i, item) => Normal {| cart := <[i := bumpQuantity 1 item]> (cart state) |}
  end.
Proof. reflexivity. Qed.

Lemma decrease_no_removal rev state id i item :
  findItem id (cart state) = Some (i, item) → quantity item ≠ 1 →
  decreaseOf rev state id =
  Normal {| cart := <[i := bumpQuantity (-1) item]> (cart state) |}.
Proof.
  intros Hfind Hq. destruct rev; simpl.
  - unfold CartSlice.decreaseItemQuantity. by rewrite Hfind.
  - unfold UpdatingQuantities.decreaseItemQuantity. rewrite Hfind. simpl.
    case_decide; [lia | done].
Qed.

Lemma decrease_normal rev state id i item :
  findItem id (cart state) = Some (i, item) →
  ∃ state', decreaseOf rev state id = Normal state'.
Proof.
  intros Hfind. destruct rev; simpl.
  - unfold CartSlice.decreaseItemQuantity. rewrite Hfind. eauto.
  - unfold UpdatingQuantities.decreaseItemQuantity. rewrite Hfind. simpl.
    case_decide; unfold CartSlice.deleteItem; eauto.
Qed.

Lemma decrease_absent rev state id :
  findItem id (cart state) = None → decreaseOf rev state id = Throw TypeError.
Proof.
  intros Hfind. destruct rev; simpl.
  - unfold CartSlice.decreaseItemQuantity. by rewrite Hfind.
  - unfold UpdatingQuantities.decreaseItemQuantity. by rewrite Hfind.
Qed.

(** C9. increaseItemQuantity and decreaseItemQuantity need the target
    pizzaId in the cart: when an item with that pizzaId is present the lookup
    finds one and both reducers complete normally (the missing-item branch is
    not taken); when no item has that pizzaId the lookup yields undefined and
    both reducers throw the TypeError of a property read on undefined, which
    is neither a no-op (a normal completion with the old state) nor a
    reported not-found value. *)
Theorem quantity_reducers_need_item :
  (∀ rev state id,
      (∃ item, item ∈ cart state ∧ pizzaId item = id) →
      (∃ i item, findItem id (cart state) = Some (i, item) ∧ pizzaId item = id) ∧
      (∃ state', CartSlice.increaseItemQuantity state id = Normal state') ∧
      (∃ state', decreaseOf rev state id = Normal state'))
  ∧ (∀ rev state id,
      (∀ item, item ∈ cart state → pizzaId item ≠ id) →
      findItem id (cart state) = None ∧
      CartSlice.increaseItemQuantity state id = Throw TypeError ∧
      decreaseOf rev state id = Throw TypeError ∧
      CartSlice.increaseItemQuantity state id ≠ Normal state ∧
      decreaseOf rev state id ≠ Normal state).
Proof.
  split.
  - intros rev state id Hpresent.
    destruct (findItem_present _ _ Hpresent) as (i & item & Hfind).
    destruct (findItem_Some _ _ _ _ Hfind) as (_ & Hid & _).
    split; [by exists i, item|]. split.
    + rewrite increase_unfold, Hfind. eauto.
    + by eapply decrease_normal.
  - intros rev state id Habsent.
    pose proof (findItem_absent _ _ Habsent) as Hfind.
    pose proof (decrease_absent rev state id Hfind) as Hdec.
    rewrite increase_unfold, Hfind, Hdec. by repeat split.
Qed.

(** ** Frame of the quantity reducers *)

Lemma only_quantity_changed_insert delta items i item :
  items !! i = Some item →
  onlyQuantityChanged delta i items (<[i := bumpQuantity delta item]> items).
Proof.
  intros Hi. pose proof (lookup_lt_Some _ _ _ Hi) as Hlt.
  split; [by rewrite length_insert|].
  split; [intros j Hj; by apply list_lookup_insert_ne|].
  exists item, (bumpQuantity delta item).
  split; [done|]. split; [by apply list_lookup_insert_eq|].
  by repeat split.
Qed.

(** C10. For a pizzaId present in the cart, increaseItemQuantity, and
    decreaseItemQuantity when the found item has quantity at least 2, return
    the cart with the found item (the first one with that pizzaId) rewritten
    in place: its quantity moves by one and its totalPrice is recomputed,
    its pizzaId, name and unitPrice are kept, every other position holds the
    item it held before, and the length, hence the order, is unchanged. *)
Theorem quantity_reducers_frame :
  ∀ rev state id,
    (∃ item, item ∈ cart state ∧ pizzaId item = id) →
    ∃ i item,
      cart state !! i = Some item ∧ pizzaId item = id ∧
      (∃ state', CartSlice.increaseItemQuantity state id = Normal state' ∧
                 onlyQuantityChanged 1 i (cart state) (cart state')) ∧
      (2 ≤ quantity item →
       ∃ state', decreaseOf rev state id = Normal state' ∧
                 onlyQuantityChanged (-1) i (cart state) (cart state')).
Proof.
  intros rev state id Hpresent.
  destruct (findItem_present _ _ Hpresent) as (i & item & Hfind).
  destruct (findItem_Some _ _ _ _ Hfind) as (Hi & Hid & _).
  exists i, item. split; [done|]. split; [done|]. split.
  - eexists. rewrite increase_unfold, Hfind. split; [done|].
    by apply only_quantity_changed_insert.
  - intros Hq. eexists. split.
    + apply (decrease_no_removal rev state id i item Hfind). lia.
    + by apply only_quantity_changed_insert.
Qed.

(** ** Removal at quantity zero *)

Lemma filter_insert_dropped {A} (P : A → Prop) `{∀ x, Decision (P x)}
    (l : list A) i x y :
  l !! i = Some x → ¬ P x → ¬ P y → filter P (<[i := y]> l) = filter P l.
Proof.
  revert i. induction l as [|a l IH]; intros [|i] Hi Hx Hy; simpl in *; try done.
  - injection Hi as ->. by rewrite !filter_cons_False.
  - rewrite !filter_cons. by rewrite (IH i Hi Hx Hy).
Qed.

Lemma decrease_last_unit state id i item :
  findItem id (cart state) = Some (i, item) → quantity item = 1 →
  UpdatingQuantities.decreaseItemQuantity state id = CartSlice.deleteItem state id.
Proof.
  intros Hfind Hq.
  destruct (findItem_Some _ _ _ _ Hfind) as (Hi & Hid & _).
  unfold UpdatingQuantities.decreaseItemQuantity. rewrite Hfind. simpl.
  rewrite Hq. simpl. unfold CartSlice.deleteItem. simpl. f_equal. f_equal.
  apply (filter_insert_dropped _ _ _ item); [done| |]; simpl; intros Hne; by apply Hne.
Qed.

Lemma unique_id_found id items item :
  NoDup (pizzaId <$> items) → item ∈ items → pizzaId item = id →
  ∃ i, findItem id items = Some (i, item).
Proof.
  intros Hnd Hin Hid.
  destruct (findItem_present id items) as (i & found & Hfind); [by exists item|].
  exists i. rewrite Hfind. do 2 f_equal.
  destruct (findItem_Some _ _ _ _ Hfind) as (Hi & Hfid & _).
  apply list_elem_of_lookup in Hin as [j Hj].
  assert (i = j) as ->; [|congruence].
  eapply (NoDup_lookup _ _ _ id Hnd); rewrite list_lookup_fmap.
  - by rewrite Hi; simpl; rewrite Hfid.
  - by rewrite Hj; simpl; rewrite Hid.
Qed.

Lemma dispatch_keeps_positive state a :
  addsPositive a → Forall quantityPositive (cart state) →
  Forall quantityPositive (cart (dispatch QuantityUpdate state a)).
Proof.
  intros Ha Hinv. unfold dispatch.
  destruct a as [item | id | id | id | ]; simpl.
  - apply Forall_app. split; [done|]. by constructor.
  - by apply Forall_filter_keep.
  - rewrite increase_unfold.
    destruct (findItem id (cart state)) as [[i found]|] eqn:Hfind; [|done]. simpl.
    destruct (findItem_Some _ _ _ _ Hfind) as (Hi & _).
    apply Forall_insert; [done|].
    pose proof (Forall_lookup_1 _ _ _ _ Hinv Hi) as Hpos.
    unfold quantityPositive in *. simpl. lia.
  - unfold UpdatingQuantities.decreaseItemQuantity.
    destruct (findItem id (cart state)) as [[i found]|] eqn:Hfind; [|done]. simpl.
    destruct (findItem_Some _ _ _ _ Hfind) as (Hi & Hid & _).
    pose proof (Forall_lookup_1 _ _ _ _ Hinv Hi) as Hpos.
    case_decide as Hzero; simpl.
    + erewrite filter_insert_dropped; [by apply Forall_filter_keep|done| |];
        simpl; intros Hne; by apply Hne.
    + apply Forall_insert; [done|].
      unfold quantityPositive in *. simpl in *. lia.
  - constructor.
Qed.

(** C2, as the code has it (quantity-update revision of
    decreaseItemQuantity).  The reducer acts on the first item with the
    pizzaId, the one find returns.  When that item has quantity exactly 1,
    decreasing is the same as deleteItem on that pizzaId: the new cart is the
    old one without the items of that pizzaId, so the item and every other
    line of that pizzaId are gone.  When that item has any other quantity,
    nothing is removed: the cart keeps its length and every other line, so
    an item of quantity 1 listed behind another line of its pizzaId stays.
    In a cart with unique pizzaIds every item of quantity 1 is the one found,
    and the decrease removes it.  From a cart whose quantities are all at
    least 1, after each operation of any sequence of cart actions (items
    added with a quantity of at least 1) every quantity is still at least 1:
    the cart never holds an item of quantity 0 and no quantity becomes
    negative; and this holds in every state reached from the empty cart by
    the actions of the pages. *)
Theorem decrease_auto_removal :
  (∀ state id i item,
      findItem id (cart state) = Some (i, item) → quantity item = 1 →
      UpdatingQuantities.decreaseItemQuantity state id = CartSlice.deleteItem state id)
  ∧ (∀ state id i item,
      findItem id (cart state) = Some (i, item) → quantity item = 1 →
      ∃ state', UpdatingQuantities.decreaseItemQuantity state id = Normal state' ∧
                cart state' = filter (λ other, pizzaId other ≠ id) (cart state) ∧
                (item ∉ cart state') ∧
                ∀ other, other ∈ cart state' → pizzaId other ≠ id)
  ∧ (∀ state id i item,
      findItem id (cart state) = Some (i, item) → quantity item ≠ 1 →
      ∃ state', UpdatingQuantities.decreaseItemQuantity state id = Normal state' ∧
                cart state' = <[i := bumpQuantity (-1) item]> (cart state) ∧
                length (cart state') = length (cart state) ∧
                ∀ j other, j ≠ i → cart state !! j = Some other →
                           cart state' !! j = Some other)
  ∧ (∀ state id item,
      NoDup (pizzaId <$> cart state) →
      item ∈ cart state → pizzaId item = id → quantity item = 1 →
      UpdatingQuantities.decreaseItemQuantity state id = CartSlice.deleteItem state id ∧
      ∃ state', UpdatingQuantities.decreaseItemQuantity state id = Normal state' ∧
                (item ∉ cart state') ∧
                ∀ other, other ∈ cart state' → pizzaId other ≠ id)
  ∧ (∀ state actions,
      Forall addsPositive actions → Forall quantityPositive (cart state) →
      Forall (λ s, Forall quantityPositive (cart s))
             (history QuantityUpdate state actions))
  ∧ (∀ actions,
      Forall fromPages actions →
      Forall (λ s, Forall quantityPositive (cart s))
             (history QuantityUpdate initialState actions)).
Proof.
  split; [exact decrease_last_unit|]. split; [|split; [|split; [|split]]].
  - intros state id i item Hfind Hq.
    destruct (findItem_Some _ _ _ _ Hfind) as (_ & Hid & _).
    rewrite (decrease_last_unit state id i item Hfind Hq). unfold CartSlice.deleteItem.
    eexists. split; [done|]. simpl. split; [done|]. split.
    + rewrite list_elem_of_filter. intros [Hne _]. by apply Hne.
    + intros other Hother. by apply list_elem_of_filter in Hother as [Hne _].
  - intros state id i item Hfind Hq.
    pose proof (decrease_no_removal QuantityUpdate state id i item Hfind Hq) as Hrun.
    simpl in Hrun. rewrite Hrun. eexists. split; [done|]. simpl.
    split; [done|]. split; [by rewrite length_insert|].
    intros j other Hne Hj. by rewrite list_lookup_insert_ne.
  - intros state id item Hnd Hin Hid Hq.
    destruct (unique_id_found id _ item Hnd Hin Hid) as [i Hfind].
    pose proof (decrease_last_unit state id i item Hfind Hq) as Heq.
    split; [done|]. rewrite Heq. unfold CartSlice.deleteItem.
    eexists. split; [done|]. simpl. split.
    + rewrite list_elem_of_filter. intros [Hne _]. by apply Hne.
    + intros other Hother. by apply list_elem_of_filter in Hother as [Hne _].
  - intros state actions.
    apply (history_invariant QuantityUpdate quantityPositive addsPositive).
    apply dispatch_keeps_positive.
  - intros actions Hacts.
    apply (history_invariant QuantityUpdate quantityPositive addsPositive);
      [| |by constructor].
    + apply dispatch_keeps_positive.
    + eapply Forall_impl; [done | apply fromPages_positive].
Qed.

(** C2, counterexample: the pages reach a cart with two lines of the same
    pizza, the second of quantity 1; decreasing that pizzaId lowers the first
    line and removes nothing, so the item of quantity 1 is still in the
    cart. *)
Lemma decrease_keeps_repeated_line :
  Forall fromPages repeatedSession ∧
  last (history QuantityUpdate initialState repeatedSession) = Some repeatedCart ∧
  mkCartItem 1 "Margherita" 1 12 12 ∈ cart repeatedCart ∧
  ∃ state',
    UpdatingQuantities.decreaseItemQuantity repeatedCart 1 = Normal state' ∧
    mkCartItem 1 "Margherita" 1 12 12 ∈ cart state'.
Proof.
  split; [|split; [|split]].
  - unfold repeatedSession.
    repeat (apply List.Forall_cons; [first [exact I | by exists margherita]|]).
    apply List.Forall_nil.
  - reflexivity.
  - apply list_elem_of_further, list_elem_of_here.
  - eexists. split; [reflexivity|].
    apply list_elem_of_further, list_elem_of_here.
Qed.

(** The earlier listing of decreaseItemQuantity has no removal step: the
    last unit leaves an item of quantity 0 behind. *)
Example decrease_overview_keeps_zero :
  CartSlice.decreaseItemQuantity
    {| cart := [mkCartItem 6 "Vegetale" 1 13 13] |} 6
  = Normal {| cart := [mkCartItem 6 "Vegetale" 0 13 0] |}.
Proof. reflexivity. Qed.

(** ** JSON texts *)

Section JSONFacts.
Import JSON.

Lemma append_assoc (a b c : string) : (a +:+ b) +:+ c = a +:+ (b +:+ c).
Proof. induction a as [|x a IH]; simpl; [done | by rewrite IH]. Qed.

Lemma parseDigits_print d rest :
  delimited rest → parseDigits (NilEmpty.string_of_uint d +:+ rest) = (d, rest).
Proof.
  intros Hrest. induction d; simpl; try (rewrite IHd; reflexivity).
  destruct rest as [|c r]; [done|]. simpl. by destruct Hrest as [-> _].
Qed.

Lemma nzhead_no_leading_zero d d' : nzhead d ≠ D0 d'.
Proof. induction d; simpl; congruence. Qed.

Lemma to_uint_shape p :
  match Pos.to_uint p with
  | Nil => False
  | D0 _ => False
  | _ => True
  end.
Proof.
  pose proof (DecimalPos.Unsigned.to_of (Pos.to_uint p)) as Hnorm.
  rewrite DecimalPos.Unsigned.of_to in Hnorm. simpl in Hnorm.
  pose proof (Unsigned.to_uint_nonnil p) as Hnil.
  pose proof (Unsigned.to_uint_nonzero p) as Hzero.
  destruct (Pos.to_uint p) as [|d'| | | | | | | | |] eqn:Hp; try done.
  rewrite unorm_D0 in Hnorm. unfold unorm in Hnorm.
  pose proof (nzhead_no_leading_zero d') as Hhead.
  destruct (nzhead d') eqn:Hd'; congruence.
Qed.

Lemma integerEnds_delimited rest : delimited rest → integerEnds rest = true.
Proof. destruct rest; [done|]. simpl. by intros [_ ->]. Qed.

Lemma parseNumber_digits d rest :
  match d with Nil | D0 _ => False | _ => True end →
  delimited rest →
  parseNumber (NilEmpty.string_of_uint d +:+ rest) = Some (Z.of_int (Pos d), rest) ∧
  parseNumber (String "-" (NilEmpty.string_of_uint d +:+ rest))
    = Some (Z.of_int (Neg d), rest).
Proof.
  intros Hd Hrest. pose proof (integerEnds_delimited _ Hrest) as Hends.
  unfold parseNumber.
  destruct d as [|d'|d'|d'|d'|d'|d'|d'|d'|d'|d']; try done;
    simpl; rewrite (parseDigits_print d' rest Hrest), Hends; done.
Qed.

Lemma parseNumber_print n rest :
  delimited rest → parseNumber (numberToString n +:+ rest) = Some (n, rest).
Proof.
  intros Hrest. pose proof (integerEnds_delimited _ Hrest) as Hends.
  unfold numberToString.
  rewrite <- (DecimalZ.of_to n) at 2.
  destruct n as [|p|p]; simpl Z.to_int.
  - unfold parseNumber. simpl. destruct rest as [|c r]; [done|].
    simpl in *. destruct Hrest as [-> _]. simpl. by rewrite Hends.
  - pose proof (to_uint_shape p) as Hshape.
    destruct (parseNumber_digits _ rest Hshape Hrest) as [<- _].
    unfold NilZero.string_of_int, NilZero.string_of_uint.
    by destruct (Pos.to_uint p).
  - pose proof (to_uint_shape p) as Hshape.
    destruct (parseNumber_digits _ rest Hshape Hrest) as [_ <-].
    unfold NilZero.string_of_int, NilZero.string_of_uint.
    by destruct (Pos.to_uint p).
Qed.

Lemma numberToString_head n :
  ∃ c tail, numberToString n = String c tail ∧
            (c = "-"%char ∨ is_Some (digitOf c)).
Proof.
  unfold numberToString. destruct n as [|p|p]; simpl Z.to_int.
  - exists "0"%char, EmptyString. split; [done|]. right. by eexists.
  - pose proof (to_uint_shape p) as Hshape.
    unfold NilZero.string_of_int, NilZero.string_of_uint.
    destruct (Pos.to_uint p); try done; simpl; eexists _, _;
      (split; [reflexivity|]); right; by eexists.
  - eexists _, _. split; [reflexivity|]. by left.
Qed.

(** Strings *)

Lemma parseStringBody_quote s rest :
  parseStringBody (quoteBody s +:+ String dquote rest) = Some (s, rest).
Proof.
  induction s as [|c s IH]; [done|].
  cbn [quoteBody]. rewrite append_assoc.
  destruct c as [[|] [|] [|] [|] [|] [|] [|] [|]];
    (simpl; rewrite IH; reflexivity).
Qed.

(** Values *)

Lemma parseValue_number fuel c tail :
  startsNumber c →
  parseValue (S fuel) (String c tail) =
  match parseNumber (String c tail) with
  | Some (n, r) => Some (JNum n, r)
  | None => None
  end.
Proof.
  intros [-> | [f Hf]]; [reflexivity|].
  destruct c as [[|] [|] [|] [|] [|] [|] [|] [|]];
    vm_compute in Hf; try discriminate Hf; reflexivity.
Qed.

Lemma startsNumber_not_close c tail :
  startsNumber c → stripPrefix "]" (skipWs (String c tail)) = None.
Proof.
  intros [-> | [f Hf]]; [reflexivity|].
  destruct c as [[|] [|] [|] [|] [|] [|] [|] [|]];
    vm_compute in Hf; try discriminate Hf; reflexivity.
Qed.

Lemma stringify_not_close v more :
  stripPrefix "]" (skipWs (stringify v +:+ more)) = None.
Proof.
  destruct v as [|[|]|n|s|elems|props]; try reflexivity.
  destruct (numberToString_head n) as (c & tail & Heq & Hc).
  simpl. rewrite Heq. by apply startsNumber_not_close.
Qed.

(** One step of each of the three mutually recursive parsers. *)

Lemma parseElements_more fuel s v rest :
  parseValue fuel s = Some (v, String "," rest) →
  parseElements (S fuel) s =
  match parseElements fuel rest with
  | Some (vs, r) => Some (v :: vs, r)
  | None => None
  end.
Proof. intros Hv. cbn [parseElements]. by rewrite Hv. Qed.

Lemma parseElements_last fuel s v rest :
  parseValue fuel s = Some (v, String "]" rest) →
  parseElements (S fuel) s = Some ([v], rest).
Proof. intros Hv. cbn [parseElements]. by rewrite Hv. Qed.

Lemma parseMembers_more fuel key s v rest :
  parseValue fuel s = Some (v, String "," rest) →
  parseMembers (S fuel) (quote key +:+ String ":" s) =
  match parseMembers fuel rest with
  | Some (kvs, r) => Some ((key, v) :: kvs, r)
  | None => None
  end.
Proof.
  intros Hv. unfold quote. cbn [String.append]. rewrite append_assoc.
  cbn [String.append parseMembers]. simpl. rewrite parseStringBody_quote.
  simpl. by rewrite Hv.
Qed.

Lemma parseMembers_last fuel key s v rest :
  parseValue fuel s = Some (v, String "}" rest) →
  parseMembers (S fuel) (quote key +:+ String ":" s) = Some ([(key, v)], rest).
Proof.
  intros Hv. unfold quote. cbn [String.append]. rewrite append_assoc.
  cbn [String.append parseMembers]. simpl. rewrite parseStringBody_quote.
  simpl. by rewrite Hv.
Qed.

Lemma parseValue_array fuel s :
  stripPrefix "]" (skipWs s) = None →
  parseValue (S fuel) (String "[" s) =
  match parseElements fuel s with
  | Some (elems, r) => Some (JArr elems, r)
  | None => None
  end.
Proof. intros Hs. simpl in *. by rewrite Hs. Qed.

Lemma parseValue_object fuel s :
  stripPrefix "}" (skipWs s) = None →
  parseValue (S fuel) (String "{" s) =
  match parseMembers fuel s with
  | Some (members, r) => Some (JObj (foldl setProp [] members), r)
  | None => None
  end.
Proof. intros Hs. simpl in *. by rewrite Hs. Qed.

Lemma parseElements_stringify elems :
  elems ≠ [] → Forall RoundTrips elems →
  ∀ fuel rest,
    fold_right (λ x acc, uniqueKeys x ∧ acc) True elems →
    (weights elems ≤ fuel)%nat →
    parseElements fuel (String.concat "," (map stringify elems) +:+ String "]" rest)
    = Some (elems, rest).
Proof.
  induction elems as [|x t IH]; [done|]. intros _ Hall fuel rest Huk Hfuel.
  inversion Hall as [|? ? Hx Ht]; subst.
  destruct Huk as [Hukx Hukt]. unfold weights in Hfuel. simpl in Hfuel.
  destruct fuel as [|fuel]; [lia|].
  destruct t as [|y t'].
  - cbn [map String.concat].
    apply parseElements_last. apply Hx; [done|lia|done].
  - assert (String.concat "," (map stringify (x :: y :: t')) +:+ String "]" rest
            = stringify x +:+ String ","
                (String.concat "," (map stringify (y :: t')) +:+ String "]" rest))
      as -> by (cbn [map String.concat]; by rewrite !append_assoc).
    erewrite parseElements_more; [|apply Hx; [done|lia|done]].
    rewrite IH; [reflexivity|done|done|done|].
    unfold weights. lia.
Qed.

Lemma parseMembers_stringify props :
  props ≠ [] → Forall (λ kv, RoundTrips (snd kv)) props →
  ∀ fuel rest,
    fold_right (λ kv acc, uniqueKeys (snd kv) ∧ acc) True props →
    (propWeights props ≤ fuel)%nat →
    parseMembers fuel (String.concat "," (map memberText props) +:+ String "}" rest)
    = Some (props, rest).
Proof.
  induction props as [|[k x] t IH]; [done|]. intros _ Hall fuel rest Huk Hfuel.
  inversion Hall as [|? ? Hx Ht]; subst. simpl in Hx.
  destruct Huk as [Hukx Hukt]. unfold propWeights in Hfuel. simpl in Hfuel.
  destruct fuel as [|fuel]; [lia|].
  destruct t as [|y t'].
  - cbn [map String.concat]. unfold memberText. simpl fst. simpl snd.
    rewrite !append_assoc.
    apply parseMembers_last. apply Hx; [done|lia|done].
  - assert (String.concat "," (map memberText ((k, x) :: y :: t')) +:+ String "}" rest
            = quote k +:+ String ":" (stringify x +:+ String ","
                (String.concat "," (map memberText (y :: t')) +:+ String "}" rest)))
      as -> by (cbn [map String.concat]; unfold memberText at 1;
                by rewrite !append_assoc).
    erewrite parseMembers_more; [|apply Hx; [done|lia|done]].
    rewrite IH; [reflexivity|done|done|done|].
    unfold propWeights. lia.
Qed.

Lemma setProp_fresh (props : list (string * JsVal)) k v :
  k ∉ fst <$> props → setProp props (k, v) = props ++ [(k, v)].
Proof.
  induction props as [|[k' v'] t IH]; intros Hk; [done|]. simpl in *.
  apply not_elem_of_cons in Hk as [Hne Hk].
  destruct (String.eqb_spec k' k) as [->|_]; [done|]. by rewrite IH.
Qed.

Lemma foldl_setProp_unique (acc props : list (string * JsVal)) :
  NoDup (fst <$> (acc ++ props)) → foldl setProp acc props = acc ++ props.
Proof.
  revert acc. induction props as [|[k v] t IH]; intros acc Hnd; simpl.
  - by rewrite app_nil_r.
  - rewrite setProp_fresh.
    + rewrite IH; rewrite <- app_assoc; done.
    + rewrite fmap_app in Hnd. apply NoDup_app in Hnd as (_ & Hdisj & _).
      intros Hin. apply (Hdisj k Hin). simpl. left.
Qed.

Theorem parseValue_stringify v : RoundTrips v.
Proof.
  induction v as [|b|n|s|elems IH|props IH] using JsVal_ind;
    intros fuel rest Huk Hfuel Hrest;
    (destruct fuel as [|fuel]; [simpl in Hfuel; lia|]).
  - reflexivity.
  - by destruct b.
  - destruct (numberToString_head n) as (c & tail & Heq & Hc).
    pose proof (parseNumber_print n rest Hrest) as Hnum.
    cbn [stringify] in *. rewrite Heq in *. simpl String.append in *.
    rewrite parseValue_number by done. by rewrite Hnum.
  - cbn [stringify]. unfold quote. simpl String.append.
    rewrite (append_assoc (quoteBody s)).
    simpl String.append. cbn [parseValue]. simpl.
    by rewrite parseStringBody_quote.
  - destruct elems as [|x t]; [reflexivity|].
    cbn [stringify]. rewrite !append_assoc.
    change ("[" +:+ ?s) with (String "[" s).
    change ("]" +:+ ?s) with (String "]" s).
    rewrite parseValue_array.
    + rewrite parseElements_stringify; try done.
      cbn [weight] in Hfuel. unfold weights. lia.
    + destruct t; cbn [map String.concat]; [|rewrite append_assoc];
        apply stringify_not_close.
  - destruct props as [|kv t]; [reflexivity|].
    cbn [stringify]. rewrite !append_assoc.
    change ("{" +:+ ?s) with (String "{" s).
    change ("}" +:+ ?s) with (String "}" s).
    destruct Huk as [Hnd Huk].
    rewrite parseValue_object.
    + fold memberText.
      rewrite parseMembers_stringify; try done.
      * by rewrite (foldl_setProp_unique [] (kv :: t)).
      * cbn [weight] in Hfuel. unfold propWeights. lia.
    + by destruct t.
Qed.
End JSONFacts.

(** ** The phone pattern *)

Lemma append_empty_inv (s1 s2 : string) :
  s1 +:+ s2 = EmptyString → s1 = EmptyString ∧ s2 = EmptyString.
Proof. by destruct s1. Qed.

Lemma append_cons_inv (s1 s2 : string) c s :
  s1 +:+ s2 = String c s →
  (s1 = EmptyString ∧ s2 = String c s) ∨
  (∃ s1', s1 = String c s1' ∧ s = s1' +:+ s2).
Proof.
  destruct s1 as [|a s1]; simpl; intros Heq; [by left|].
  injection Heq as -> <-. right. by exists s1.
Qed.

Lemma nullable_spec r : nullable r = true ↔ Matches r EmptyString.
Proof.
  split.
  - induction r as [| |member|r1 IH1 r2 IH2|r1 IH1 r2 IH2]; simpl; intros Hn;
      try done.
    + constructor.
    + apply andb_true_iff in Hn as [H1 H2].
      change EmptyString with (EmptyString +:+ EmptyString).
      constructor; auto.
    + apply orb_true_iff in Hn as [H1 | H2];
        [apply MatchAltL | apply MatchAltR]; auto.
  - remember EmptyString as s eqn:Hs. intros Hm.
    induction Hm as [|member c Hc|r1 r2 s1 s2 H1 IH1 H2 IH2|r1 r2 s H IH|r1 r2 s H IH];
      simpl; try done.
    + apply append_empty_inv in Hs as [-> ->]. by rewrite IH1, IH2.
    + by rewrite IH.
    + rewrite IH by done. apply orb_true_r.
Qed.

Lemma derive_sound c r s : Matches (derive c r) s → Matches r (String c s).
Proof.
  revert s.
  induction r as [| |member|r1 IH1 r2 IH2|r1 IH1 r2 IH2]; simpl; intros s Hm.
  - inversion Hm.
  - inversion Hm.
  - destruct (member c) eqn:Hc; inversion Hm; subst. by constructor.
  - destruct (nullable r1) eqn:Hn.
    + inversion Hm as [| | |? ? ? Hl|? ? ? Hr]; subst.
      * inversion Hl as [| |? ? s1 s2 H1 H2| |]; subst.
        change (String c (s1 +:+ s2)) with (String c s1 +:+ s2).
        constructor; auto.
      * change (String c s) with (EmptyString +:+ String c s).
        constructor; [by apply nullable_spec | auto].
    + inversion Hm as [| |? ? s1 s2 H1 H2| |]; subst.
      change (String c (s1 +:+ s2)) with (String c s1 +:+ s2).
      constructor; auto.
  - inversion Hm; subst; [apply MatchAltL | apply MatchAltR]; auto.
Qed.

Lemma derive_complete c r s : Matches r (String c s) → Matches (derive c r) s.
Proof.
  remember (String c s) as cs eqn:Hcs. intros Hm. revert s Hcs.
  induction Hm as [|member a Ha|r1 r2 s1 s2 H1 IH1 H2 IH2|r1 r2 s0 H IH|r1 r2 s0 H IH];
    intros s Hcs; simpl.
  - done.
  - injection Hcs as -> <-. rewrite Ha. constructor.
  - apply append_cons_inv in Hcs as [[-> ->] | (s1' & -> & ->)].
    + apply nullable_spec in H1. rewrite H1. apply MatchAltR. by apply IH2.
    + destruct (nullable r1); [apply MatchAltL|]; constructor; auto.
  - apply MatchAltL. by apply IH.
  - apply MatchAltR. by apply IH.
Qed.

(** The matcher decides the matching relation. *)
Theorem matchesWhole_spec r s : matchesWhole r s = true ↔ Matches r s.
Proof.
  revert r. induction s as [|c s IH]; intros r; simpl.
  - apply nullable_spec.
  - rewrite IH. split; [apply derive_sound | apply derive_complete].
Qed.

Lemma length_append (s1 s2 : string) :
  String.length (s1 +:+ s2) = (String.length s1 + String.length s2)%nat.
Proof. induction s1 as [|c s1 IH]; simpl; [done | by rewrite IH]. Qed.

Lemma minLength_bound r s :
  Matches r s → ∃ n, minLength r = Some n ∧ (n ≤ String.length s)%nat.
Proof.
  induction 1 as [|member c Hc|r1 r2 s1 s2 _ (a & Ha & Hla) _ (b & Hb & Hlb)
                  |r1 r2 s _ (a & Ha & Hla)|r1 r2 s _ (b & Hb & Hlb)]; simpl.
  - by exists 0%nat.
  - by exists 1%nat.
  - rewrite Ha, Hb, length_append. eexists. split; [done | lia].
  - rewrite Ha. destruct (minLength r2); eexists; (split; [done | lia]).
  - rewrite Hb. destruct (minLength r1); eexists; (split; [done | lia]).
Qed.

Lemma isValidPhone_spec str : isValidPhone str = true ↔ Matches phonePattern str.
Proof. apply matchesWhole_spec. Qed.

(** Five digits at least: anything shorter is rejected. *)
Lemma phone_needs_five_characters str :
  isValidPhone str = true → (5 ≤ String.length str)%nat.
Proof.
  intros Hv. apply matchesWhole_spec in Hv.
  destruct (minLength_bound _ _ Hv) as (n & Hn & Hlen).
  vm_compute in Hn. injection Hn as <-. done.
Qed.

(** ** Round trip of whole texts *)

Section WholeTexts.
Import JSON.

Lemma append_empty_r (s : string) : s +:+ EmptyString = s.
Proof. induction s as [|c s IH]; simpl; [done | by rewrite IH]. Qed.

Lemma weights_bound elems :
  Forall (λ v, (weight v ≤ String.length (stringify v))%nat) elems →
  (weights elems ≤ S (String.length (String.concat "," (map stringify elems))))%nat.
Proof.
  induction 1 as [|x t Hx Ht IH]; [simpl; lia|].
  unfold weights in *. destruct t as [|y t'].
  - simpl. lia.
  - cbn [map String.concat fold_right] in *. rewrite !length_append. simpl in *. lia.
Qed.

Lemma propWeights_bound props :
  Forall (λ kv, (weight (snd kv) ≤ String.length (stringify (snd kv)))%nat) props →
  (propWeights props ≤ S (String.length (String.concat "," (map memberText props))))%nat.
Proof.
  induction 1 as [|x t Hx Ht IH]; [simpl; lia|].
  assert (weight (snd x) ≤ String.length (memberText x))%nat as Hmember.
  { unfold memberText. rewrite !length_append. simpl in Hx. lia. }
  unfold propWeights in *. destruct t as [|y t'].
  - cbn [map String.concat fold_right]. lia.
  - cbn [map String.concat fold_right] in *. rewrite !length_append.
    cbn [String.length] in *. lia.
Qed.

Lemma weight_bound v : (weight v ≤ String.length (stringify v))%nat.
Proof.
  induction v as [|b|n|s|elems IH|props IH] using JsVal_ind.
  - simpl. lia.
  - destruct b; simpl; lia.
  - destruct (numberToString_head n) as (c & tail & Heq & _).
    cbn [stringify weight]. rewrite Heq. simpl. lia.
  - simpl. lia.
  - pose proof (weights_bound elems IH) as Hw.
    cbn [stringify weight]. rewrite !length_append. fold (weights elems).
    simpl. lia.
  - pose proof (propWeights_bound props IH) as Hw.
    cbn [stringify weight]. rewrite !length_append. fold (propWeights props).
    fold memberText. simpl. lia.
Qed.

(** [JSON.parse(JSON.stringify(v))] gives [v] back. *)
Lemma parse_stringify v : uniqueKeys v → parse (stringify v) = Normal v.
Proof.
  intros Huk. unfold parse.
  pose proof (parseValue_stringify v (S (String.length (stringify v))) EmptyString Huk)
    as Hparse.
  rewrite append_empty_r in Hparse. rewrite Hparse; [done| |done].
  pose proof (weight_bound v). lia.
Qed.

End WholeTexts.

(** ** Cart items as objects *)

Lemma itemOfJs_itemToJs item : itemOfJs (itemToJs item) = Some item.
Proof. by destruct item. Qed.

Lemma cartOfJs_cartToJs items : cartOfJs (cartToJs items) = Some items.
Proof.
  unfold cartOfJs, cartToJs. induction items as [|item rest IH]; [done|].
  cbn [fmap list_fmap mapM]. rewrite itemOfJs_itemToJs. simpl.
  simpl in IH. by rewrite IH.
Qed.

Lemma cartToJs_inj items items' : cartToJs items = cartToJs items' → items = items'.
Proof.
  intros Heq. pose proof (cartOfJs_cartToJs items) as H1.
  rewrite Heq, cartOfJs_cartToJs in H1. congruence.
Qed.

Lemma itemToJs_uniqueKeys item : uniqueKeys (itemToJs item).
Proof.
  simpl. split; [|done].
  apply (bool_decide_unpack _). by vm_compute.
Qed.

Lemma cartToJs_uniqueKeys items : uniqueKeys (cartToJs items).
Proof.
  unfold cartToJs. induction items as [|item rest IH]; [done|].
  cbn [fmap list_fmap uniqueKeys fold_right]. split; [apply itemToJs_uniqueKeys|].
  exact IH.
Qed.

Lemma parse_hiddenCart items : JSON.parse (hiddenCart items) = Normal (cartToJs items).
Proof. apply parse_stringify, cartToJs_uniqueKeys. Qed.

(** ** The services and the action, step by step *)

Lemma lookupProp_setProp_ne key key' v props :
  key ≠ key' → lookupProp key (JSON.setProp props (key', v)) = lookupProp key props.
Proof.
  intros Hne. induction props as [|[k x] rest IH]; simpl.
  - destruct (String.eqb_spec key' key); [congruence | done].
  - destruct (String.eqb_spec k key') as [->|Hk]; simpl.
    + destruct (String.eqb_spec key' key); [congruence | done].
    + destruct (String.eqb_spec k key); [done | exact IH].
Qed.

Lemma lookupProp_setProp_eq key v props :
  lookupProp key (JSON.setProp props (key, v)) = Some v.
Proof.
  induction props as [|[k x] rest IH]; simpl.
  - by rewrite String.eqb_refl.
  - destruct (String.eqb_spec k key) as [->|Hk]; simpl.
    + by rewrite String.eqb_refl.
    + destruct (String.eqb_spec k key); [congruence | exact IH].
Qed.

Lemma assembleOrder_phone data order :
  assembleOrder data = Normal order →
  lookupProp "phone" order = lookupProp "phone" data.
Proof.
  unfold assembleOrder.
  destruct (JSON.parse _) as [parsed|]; [|done]. intros [= <-].
  by rewrite !lookupProp_setProp_ne.
Qed.

Lemma assembleOrder_cart data order parsed :
  JSON.parse (toString (lookupProp "cart" data)) = Normal parsed →
  assembleOrder data = Normal order →
  lookupProp "cart" order = Some parsed.
Proof.
  unfold assembleOrder. intros ->. intros [= <-].
  rewrite lookupProp_setProp_ne by done. apply lookupProp_setProp_eq.
Qed.

Lemma createOrder_unfold url newOrder w :
  createOrder url newOrder w =
  let w' := afterRequest w (createOrderRequest url newOrder) in
  match respond w (createOrderRequest url newOrder) with
  | NetworkError => (Throw creationFailed, w')
  | HttpResponse st tx =>
      if bool_decide (200 ≤ st ≤ 299) then
        match JSON.parse tx with
        | Normal parsed =>
            match getProperty (Some parsed) "data" with
            | Normal data => (Normal data, w')
            | Throw _ => (Throw creationFailed, w')
            end
        | Throw _ => (Throw creationFailed, w')
        end
      else (Throw creationFailed, w')
  end.
Proof.
  unfold createOrder, createOrderRequest, afterRequest, creationFailed,
    tryCatch, bind, fetch, json, lift, ret, throw, ok.
  cbv zeta. destruct (respond w _) as [|st tx]; [done|].
  cbn [status text]. case_bool_decide; cbn [negb]; [|done].
  destruct (JSON.parse tx) as [parsed|]; [|done].
  by destruct (getProperty (Some parsed) "data").
Qed.

Lemma getOrder_unfold url id w :
  getOrder url id w =
  let w' := afterRequest w (getOrderRequest url id) in
  match respond w (getOrderRequest url id) with
  | NetworkError => (Throw TypeError, w')
  | HttpResponse st tx =>
      if bool_decide (200 ≤ st ≤ 299) then
        match JSON.parse tx with
        | Normal parsed =>
            match getProperty (Some parsed) "data" with
            | Normal data => (Normal data, w')
            | Throw e => (Throw e, w')
            end
        | Throw e => (Throw e, w')
        end
      else (Throw (Error ("Couldn't find order #" +:+ id)), w')
  end.
Proof.
  unfold getOrder, getOrderRequest, afterRequest, bind, fetch, json, lift,
    ret, throw, ok.
  cbv zeta. destruct (respond w _) as [|st tx]; [done|].
  cbn [status text]. case_bool_decide; cbn [negb]; [|done].
  destruct (JSON.parse tx) as [parsed|]; [|done].
  by destruct (getProperty (Some parsed) "data").
Qed.

Lemma createOrderAction_unfold url formData w :
  createOrderAction url formData w =
  match assembleOrder (fromEntries formData) with
  | Throw e => (Throw e, w)
  | Normal order =>
      if isValidPhone (toString (lookupProp "phone" order)) then
        match createOrder url (JObj order) w with
        | (Normal newOrder, w') =>
            match getProperty newOrder "id" with
            | Normal id => (Normal (Redirect ("/order/" +:+ toString id)), w')
            | Throw e => (Throw e, w')
            end
        | (Throw e, w') => (Throw e, w')
        end
      else (Normal (FieldErrors phoneErrors), w)
  end.
Proof.
  unfold createOrderAction, bind, lift, ret.
  destruct (assembleOrder (fromEntries formData)) as [order|]; [|done].
  destruct (isValidPhone _); simpl.
  - rewrite map_size_empty. simpl.
    destruct (createOrder url (JObj order) w) as [[newOrder|] w']; [|done].
    by destruct (getProperty newOrder "id").
  - unfold phoneErrors. rewrite !insert_empty. by rewrite map_size_singleton.
Qed.

Lemma fromEntries_form defaultName items typed :
  fromEntries (formEntries defaultName items typed) =
  [("customer", JStr (default defaultName (typedCustomer typed)));
   ("phone", JStr (typedPhone typed));
   ("address", JStr (typedAddress typed))]
  ++ (if tickedPriority typed then [("priority", JStr "on")] else [])
  ++ [("cart", JStr (hiddenCart items))].
Proof. unfold formEntries. by destruct (tickedPriority typed). Qed.

Lemma assembleOrder_form defaultName items typed :
  assembleOrder (fromEntries (formEntries defaultName items typed))
  = Normal (formOrder defaultName items typed).
Proof.
  rewrite fromEntries_form. unfold assembleOrder, formOrder.
  destruct (tickedPriority typed); cbn [app lookupProp String.eqb Ascii.eqb Bool.eqb toString toStringValue];
    by rewrite parse_hiddenCart.
Qed.

(** ** The validation gate *)

(** Every call of createOrder sends its request, whatever the outcome. *)
Lemma createOrder_sends url newOrder w :
  snd (createOrder url newOrder w) = afterRequest w (createOrderRequest url newOrder).
Proof.
  rewrite createOrder_unfold. cbv zeta.
  destruct (respond w _) as [|st tx]; [done|].
  case_bool_decide; [|done].
  destruct (JSON.parse tx) as [parsed|]; [|done].
  by destruct (getProperty (Some parsed) "data").
Qed.

Lemma phoneText_order formData order :
  assembleOrder (fromEntries formData) = Normal order →
  toString (lookupProp "phone" order) = phoneText formData.
Proof. intros Horder. unfold phoneText. by rewrite (assembleOrder_phone _ _ Horder). Qed.

Lemma action_rejects_phone url formData order w :
  assembleOrder (fromEntries formData) = Normal order →
  isValidPhone (phoneText formData) = false →
  createOrderAction url formData w = (Normal (FieldErrors phoneErrors), w).
Proof.
  intros Horder Hphone. rewrite createOrderAction_unfold, Horder.
  by rewrite (phoneText_order _ _ Horder), Hphone.
Qed.

Lemma action_calls_api url formData order w :
  assembleOrder (fromEntries formData) = Normal order →
  isValidPhone (phoneText formData) = true →
  ∃ result,
    createOrderAction url formData w
    = (result, afterRequest w (createOrderRequest url (JObj order)))
    ∧ ∀ errors, result ≠ Normal (FieldErrors errors).
Proof.
  intros Horder Hphone. rewrite createOrderAction_unfold, Horder.
  rewrite (phoneText_order _ _ Horder), Hphone, createOrder_unfold. cbv zeta.
  destruct (respond w _) as [|st tx]; [by eexists|].
  case_bool_decide; [|by eexists].
  destruct (JSON.parse tx) as [parsed|]; [|by eexists].
  destruct (getProperty (Some parsed) "data") as [data|]; [|by eexists].
  destruct (getProperty data "id"); by eexists.
Qed.

(** A phone that fails the pattern never leads to a request, not even when
    the cart field is malformed and the action throws before validating. *)
Lemma invalid_phone_sends_nothing url formData w :
  isValidPhone (phoneText formData) = false →
  snd (createOrderAction url formData w) = w ∧
  (fst (createOrderAction url formData w) = Normal (FieldErrors phoneErrors) ∨
   ∃ e, fst (createOrderAction url formData w) = Throw e ∧
        assembleOrder (fromEntries formData) = Throw e).
Proof.
  intros Hphone. rewrite createOrderAction_unfold.
  destruct (assembleOrder (fromEntries formData)) as [order|e] eqn:Horder.
  - rewrite (phoneText_order _ _ Horder), Hphone. split; [done | by left].
  - split; [done|]. right. by exists e.
Qed.

Lemma phoneText_form defaultName items typed :
  phoneText (formEntries defaultName items typed) = typedPhone typed.
Proof. unfold phoneText. rewrite fromEntries_form. by destruct (tickedPriority typed). Qed.

(** C3. Validation gate.  The strings 123 and +1-555-123-4567 are
    respectively rejected and accepted by the phone pattern.  A phone that
    fails the pattern never leads to a request: the action returns the
    field-error map, unless parsing the cart field threw first.  For every
    submitted form whose cart field holds a JSON text: when the phone field
    does not match the pattern, createOrderAction returns the field-error
    map with its phone entry and the world is left as it was (no request is
    sent, whereas every call of createOrder sends one); when it matches, no field-error map is
    returned and exactly the POST of the assembled order goes out.  For the
    form CreateOrder renders this holds for every phone the customer types. *)
Theorem phone_validation_gate :
  (isValidPhone "123" = false ∧ isValidPhone "+1-555-123-4567" = true) ∧
  (∀ url newOrder w,
      sent (snd (createOrder url newOrder w))
      = sent w ++ [createOrderRequest url newOrder]) ∧
  (∀ url formData w,
      isValidPhone (phoneText formData) = false →
      snd (createOrderAction url formData w) = w ∧
      (fst (createOrderAction url formData w) = Normal (FieldErrors phoneErrors) ∨
       ∃ e, fst (createOrderAction url formData w) = Throw e ∧
            assembleOrder (fromEntries formData) = Throw e)) ∧
  (∀ url formData order w,
      assembleOrder (fromEntries formData) = Normal order →
      (isValidPhone (phoneText formData) = false →
       createOrderAction url formData w = (Normal (FieldErrors phoneErrors), w) ∧
       phoneErrors !! "phone" = Some phoneMessage) ∧
      (isValidPhone (phoneText formData) = true →
       ∃ result,
         createOrderAction url formData w
         = (result, afterRequest w (createOrderRequest url (JObj order))) ∧
         ∀ errors, result ≠ Normal (FieldErrors errors))) ∧
  (∀ url state typed w,
      (isValidPhone (typedPhone typed) = false →
       createOrderAction url (CreateOrder state typed) w
       = (Normal (FieldErrors phoneErrors), w)) ∧
      (isValidPhone (typedPhone typed) = true →
       ∃ result order,
         createOrderAction url (CreateOrder state typed) w
         = (result, afterRequest w (createOrderRequest url (JObj order))) ∧
         ∀ errors, result ≠ Normal (FieldErrors errors))).
Proof.
  split; [split; by vm_compute|]. split; [|split; [|split]].
  - intros url newOrder w. by rewrite createOrder_sends.
  - apply invalid_phone_sends_nothing.
  - intros url formData order w Horder. split.
    + intros Hphone. split; [by eapply action_rejects_phone|].
      unfold phoneErrors. apply lookup_insert_eq.
    + intros Hphone. by eapply action_calls_api.
  - intros url state typed w. unfold CreateOrder.
    pose proof (assembleOrder_form (username (userSlice state)) fakeCart typed) as Horder.
    split; intros Hphone.
    + eapply action_rejects_phone; [done|]. by rewrite phoneText_form.
    + destruct (action_calls_api url _ _ w Horder) as (result & Hrun & Hne).
      { by rewrite phoneText_form. }
      by exists result, (formOrder (username (userSlice state)) fakeCart typed).
Qed.

(** ** Creating an order *)

Lemma createOrder_throws_generic url newOrder w e w' :
  createOrder url newOrder w = (Throw e, w') → e = creationFailed.
Proof.
  rewrite createOrder_unfold. cbv zeta.
  destruct (respond w _) as [|st tx]; [congruence|].
  case_bool_decide; [|congruence].
  destruct (JSON.parse tx) as [parsed|]; [|congruence].
  destruct (getProperty (Some parsed) "data"); congruence.
Qed.

(** C7. Order creation.  Once the action reaches the API call, a failed
    call (a rejected fetch, a status outside 200-299) makes createOrder
    throw the one Error with the fixed message "Failed creating your order";
    createOrder either returns data or throws exactly that error, whatever
    went wrong inside it; the action lets the error through, and a thrown
    error is not a field-error map.  On success (a 2xx answer whose JSON
    body has a data object with an id) the action returns the redirect to
    /order/ followed by that id. *)
Theorem order_creation_outcomes :
  (∀ url newOrder w,
      let request := createOrderRequest url newOrder in
      let w' := afterRequest w request in
      (respond w request = NetworkError →
       createOrder url newOrder w = (Throw creationFailed, w')) ∧
      (∀ st tx, respond w request = HttpResponse st tx → ¬ (200 ≤ st ≤ 299) →
       createOrder url newOrder w = (Throw creationFailed, w')) ∧
      ((∃ data, createOrder url newOrder w = (Normal data, w')) ∨
       createOrder url newOrder w = (Throw creationFailed, w')) ∧
      (∀ e w'', createOrder url newOrder w = (Throw e, w'') → e = creationFailed) ∧
      (∀ st tx parsed data, respond w request = HttpResponse st tx →
       200 ≤ st ≤ 299 → JSON.parse tx = Normal parsed →
       getProperty (Some parsed) "data" = Normal data →
       createOrder url newOrder w = (Normal data, w')))
  ∧ (∀ url formData order w,
      assembleOrder (fromEntries formData) = Normal order →
      isValidPhone (phoneText formData) = true →
      (∀ e w', createOrder url (JObj order) w = (Throw e, w') →
       createOrderAction url formData w = (Throw creationFailed, w') ∧
       ∀ errors, Throw creationFailed ≠ Normal (FieldErrors errors)) ∧
      (∀ data id w', createOrder url (JObj order) w = (Normal (Some data), w') →
       getProperty (Some data) "id" = Normal (Some id) →
       createOrderAction url formData w
       = (Normal (Redirect ("/order/" +:+ toStringValue id)), w'))).
Proof.
  split.
  - intros url newOrder w request w'. subst request w'.
    repeat split.
    + intros Hnet. by rewrite createOrder_unfold, Hnet.
    + intros st tx Hres Hst. rewrite createOrder_unfold, Hres. cbv zeta.
      by rewrite bool_decide_false.
    + rewrite createOrder_unfold. cbv zeta.
      destruct (respond w _) as [|st tx]; [by right|].
      case_bool_decide; [|by right].
      destruct (JSON.parse tx) as [parsed|]; [|by right].
      destruct (getProperty (Some parsed) "data") as [data|]; [|by right].
      left. by exists data.
    + intros e w''. apply createOrder_throws_generic.
    + intros st tx parsed data Hres Hst Hparse Hdata.
      rewrite createOrder_unfold, Hres, Hparse, Hdata. cbv zeta.
      by rewrite bool_decide_true.
  - intros url formData order w Horder Hphone. split.
    + intros e w' Hcreate.
      pose proof (createOrder_throws_generic _ _ _ _ _ Hcreate) as ->.
      split; [|done].
      rewrite createOrderAction_unfold, Horder.
      by rewrite (phoneText_order _ _ Horder), Hphone, Hcreate.
    + intros data id w' Hcreate Hid.
      rewrite createOrderAction_unfold, Horder.
      by rewrite (phoneText_order _ _ Horder), Hphone, Hcreate, Hid.
Qed.

(** ** Retrieving an order *)

Lemma OrderLoader_getOrder url id w :
  OrderLoader url {| orderId := id |} w = getOrder url id w.
Proof.
  unfold OrderLoader, bind, ret. simpl.
  by destruct (getOrder url id w) as [[order|] w'].
Qed.

(** C8. Order retrieval.  For every identifier, getOrder (and the loader
    that calls it) returns the data of a 2xx answer; on an answer with any
    other status, such as 404, it throws the Error whose message is
    "Couldn't find order #" followed by the identifier; a network failure
    instead surfaces as the TypeError of the rejected fetch.  The not-found
    error differs from that TypeError and from the generic error of order
    creation. *)
Theorem order_retrieval_outcomes :
  ∀ url id w,
    let request := getOrderRequest url id in
    let w' := afterRequest w request in
    let notFound := Error ("Couldn't find order #" +:+ id) in
    (∀ st tx parsed data, respond w request = HttpResponse st tx →
     200 ≤ st ≤ 299 → JSON.parse tx = Normal parsed →
     getProperty (Some parsed) "data" = Normal data →
     getOrder url id w = (Normal data, w') ∧
     OrderLoader url {| orderId := id |} w = (Normal data, w')) ∧
    (∀ st tx, respond w request = HttpResponse st tx → ¬ (200 ≤ st ≤ 299) →
     getOrder url id w = (Throw notFound, w') ∧
     OrderLoader url {| orderId := id |} w = (Throw notFound, w')) ∧
    (respond w request = NetworkError →
     getOrder url id w = (Throw TypeError, w') ∧
     OrderLoader url {| orderId := id |} w = (Throw TypeError, w')) ∧
    notFound ≠ TypeError ∧ notFound ≠ creationFailed.
Proof.
  intros url id w request w' notFound. subst request w' notFound.
  split; [|split; [|split; [|by split]]].
  - intros st tx parsed data Hres Hst Hparse Hdata.
    rewrite OrderLoader_getOrder, getOrder_unfold, Hres, Hparse, Hdata. cbv zeta.
    by rewrite bool_decide_true.
  - intros st tx Hres Hst.
    rewrite OrderLoader_getOrder, getOrder_unfold, Hres. cbv zeta.
    by rewrite bool_decide_false.
  - intros Hnet. by rewrite OrderLoader_getOrder, getOrder_unfold, Hnet.
Qed.

(** ** The cart in the submitted order *)

Lemma formOrder_cart defaultName items typed :
  lookupProp "cart" (formOrder defaultName items typed) = Some (cartToJs items).
Proof. unfold formOrder. by destruct (tickedPriority typed). Qed.

(** C6. Round trip of the cart field: for every cart, the text the form
    puts in its hidden cart field, JSON.stringify(cart), is parsed back by
    JSON.parse into the same array of objects; the items read off it are the
    items of the cart, field by field and in the same order; and the order
    the action assembles from such a form carries exactly that array as its
    cart. *)
Theorem cart_round_trip :
  ∀ items : list CartItem,
    JSON.parse (hiddenCart items) = Normal (cartToJs items) ∧
    cartOfJs (cartToJs items) = Some items ∧
    (∀ defaultName typed,
        ∃ order,
          assembleOrder (fromEntries (formEntries defaultName items typed))
          = Normal order ∧
          lookupProp "cart" order = Some (cartToJs items)).
Proof.
  intros items. split; [apply parse_hiddenCart|].
  split; [apply cartOfJs_cartToJs|].
  intros defaultName typed. exists (formOrder defaultName items typed).
  split; [apply assembleOrder_form | apply formOrder_cart].
Qed.

(** The order assembled from the form CreateOrder renders carries the
    sample cart of the component, whatever the store holds. *)
Lemma submitted_cart_is_fakeCart state typed :
  ∃ order,
    assembleOrder (fromEntries (CreateOrder state typed)) = Normal order ∧
    lookupProp "cart" order = Some (cartToJs fakeCart).
Proof.
  unfold CreateOrder. eexists.
  split; [apply assembleOrder_form | apply formOrder_cart].
Qed.

(** C4. The cart of the submitted order, evaluated on a store whose cart
    holds one Margherita: the order the action assembles, and the body of the
    request it sends, carry the three items of fakeCart, not the cart of the
    store. *)
Theorem submitted_cart_ignores_store :
  CartSlice.getCart (store (answering 201 createdAnswer))
  = [mkCartItem 1 "Margherita" 1 12 12] ∧
  assembleOrder
    (fromEntries (CreateOrder (store (answering 201 createdAnswer))
                    (sampleTyped "+15551234567")))
  = Normal (formOrder "Ana" fakeCart (sampleTyped "+15551234567")) ∧
  lookupProp "cart" (formOrder "Ana" fakeCart (sampleTyped "+15551234567"))
  = Some (cartToJs fakeCart) ∧
  sent (snd (submitOrder sampleUrl (sampleTyped "+15551234567")
               (answering 201 createdAnswer)))
  = [createOrderRequest sampleUrl sampleOrder] ∧
  cartToJs fakeCart ≠ cartToJs (CartSlice.getCart (store (answering 201 createdAnswer))).
Proof.
  split; [reflexivity|].
  split; [apply (assembleOrder_form "Ana" fakeCart)|].
  split; [apply formOrder_cart|].
  split; [by vm_compute|].
  intros Hsame. by apply cartToJs_inj in Hsame.
Qed.

(** ** The store across a submission *)

Lemma createOrder_keeps_store url newOrder w :
  store (snd (createOrder url newOrder w)) = store w.
Proof. by rewrite createOrder_sends. Qed.

Lemma createOrderAction_keeps_store url formData w :
  store (snd (createOrderAction url formData w)) = store w.
Proof.
  rewrite createOrderAction_unfold.
  destruct (assembleOrder (fromEntries formData)) as [order|]; [|done].
  destruct (isValidPhone _); [|done].
  pose proof (createOrder_keeps_store url (JObj order) w) as Hstore.
  destruct (createOrder url (JObj order) w) as [[newOrder|] w']; [|done].
  by destruct (getProperty newOrder "id").
Qed.

(** C5, as the code has it: an order submission, successful or not, leaves
    the store, and with it the cart, as it was: on none of its paths does the
    action dispatch anything; the cart is emptied by dispatching the
    clearCart action. *)
Theorem submission_keeps_store :
  (∀ url typed w, store (snd (submitOrder url typed w)) = store w) ∧
  (∀ rev w, cart (cartSlice (store (snd (dispatchCart rev ClearCart w)))) = []).
Proof.
  split; [|done].
  intros url typed w. unfold submitOrder. apply createOrderAction_keeps_store.
Qed.

(** C5, counterexample: with the sample cart in the store and an API that
    accepts the order, the submission succeeds and the cart still holds its
    three items. *)
Lemma submission_leaves_cart_filled :
  fst (submitOrder sampleUrl (sampleTyped "+15551234567")
         (answeringFilled 201 createdAnswer))
  = Normal (Redirect "/order/ORD-1") ∧
  cart (cartSlice (store (snd
    (submitOrder sampleUrl (sampleTyped "+15551234567")
       (answeringFilled 201 createdAnswer))))) ≠ [].
Proof. split; by vm_compute. Qed.

(** * Instances of the statements on the sample data *)

Ltac each_item :=
  repeat first [apply List.Forall_nil | apply List.Forall_cons];
  try exact I; cbn [addsPositive isQuantityAction fromPages];
  try (eexists; reflexivity);
  unfold quantityPositive, priceInSync; simpl; try lia; try reflexivity.

Lemma quantity_price_invariant_witness :
  (isQuantityAction (IncreaseItemQuantity 12) ∧
   cartReducer CartOverview sampleCartState (IncreaseItemQuantity 12)
   = Normal {| cart := [mkCartItem 12 "Mediterranean" 3 16 48;
                        mkCartItem 6 "Vegetale" 1 13 13;
                        mkCartItem 11 "Spinach and Mushroom" 1 15 15] |} ∧
   (priceInSync (mkCartItem 12 "Mediterranean" 3 16 48) ∨
    mkCartItem 12 "Mediterranean" 3 16 48 ∈ cart sampleCartState)) ∧
  (Forall isQuantityAction
     [IncreaseItemQuantity 12; DecreaseItemQuantity 6; DecreaseItemQuantity 6;
      DecreaseItemQuantity 11] ∧
   Forall priceInSync (cart sampleCartState) ∧
   Forall (λ s, Forall priceInSync (cart s))
     (history QuantityUpdate sampleCartState
        [IncreaseItemQuantity 12; DecreaseItemQuantity 6; DecreaseItemQuantity 6;
         DecreaseItemQuantity 11])) ∧
  (Forall fromPages sampleSession ∧
   Forall (λ s, Forall priceInSync (cart s))
     (history CartOverview initialState sampleSession)).
Proof.
  split; [|split].
  - split; [exact I|]. split; [reflexivity|].
    apply (proj1 quantity_price_invariant CartOverview sampleCartState
             (IncreaseItemQuantity 12) _ I eq_refl).
    apply list_elem_of_here.
  - assert (Forall isQuantityAction
              [IncreaseItemQuantity 12; DecreaseItemQuantity 6;
               DecreaseItemQuantity 6; DecreaseItemQuantity 11]) as Hacts
      by each_item.
    assert (Forall priceInSync (cart sampleCartState)) as Hinv
      by each_item.
    split; [exact Hacts|]. split; [exact Hinv|].
    exact (proj1 (proj2 quantity_price_invariant) QuantityUpdate sampleCartState _
             Hacts Hinv).
  - assert (Forall fromPages sampleSession) as Hacts by each_item.
    split; [exact Hacts|].
    exact (proj2 (proj2 quantity_price_invariant) CartOverview sampleSession Hacts).
Defined.

Lemma decrease_auto_removal_witness :
  (findItem 6 (cart sampleCartState) = Some (1%nat, mkCartItem 6 "Vegetale" 1 13 13) ∧
   UpdatingQuantities.decreaseItemQuantity sampleCartState 6
   = CartSlice.deleteItem sampleCartState 6) ∧
  (∃ state', UpdatingQuantities.decreaseItemQuantity sampleCartState 6 = Normal state' ∧
             cart state' = filter (λ other, pizzaId other ≠ 6) (cart sampleCartState) ∧
             (mkCartItem 6 "Vegetale" 1 13 13 ∉ cart state') ∧
             ∀ other, other ∈ cart state' → pizzaId other ≠ 6) ∧
  (findItem 1 (cart repeatedCart) = Some (0%nat, mkCartItem 1 "Margherita" 2 12 24) ∧
   ∃ state', UpdatingQuantities.decreaseItemQuantity repeatedCart 1 = Normal state' ∧
             cart state'
             = <[0%nat := bumpQuantity (-1) (mkCartItem 1 "Margherita" 2 12 24)]>
                 (cart repeatedCart) ∧
             length (cart state') = length (cart repeatedCart) ∧
             ∀ j other, j ≠ 0%nat → cart repeatedCart !! j = Some other →
                        cart state' !! j = Some other) ∧
  (NoDup (pizzaId <$> cart sampleCartState) ∧
   mkCartItem 6 "Vegetale" 1 13 13 ∈ cart sampleCartState ∧
   UpdatingQuantities.decreaseItemQuantity sampleCartState 6
   = CartSlice.deleteItem sampleCartState 6 ∧
   ∃ state', UpdatingQuantities.decreaseItemQuantity sampleCartState 6 = Normal state' ∧
             (mkCartItem 6 "Vegetale" 1 13 13 ∉ cart state') ∧
             ∀ other, other ∈ cart state' → pizzaId other ≠ 6) ∧
  (Forall addsPositive
     [DecreaseItemQuantity 6; AddItem (mkCartItem 1 "Margherita" 1 12 12);
      DecreaseItemQuantity 12; DecreaseItemQuantity 12; DecreaseItemQuantity 12] ∧
   Forall quantityPositive (cart sampleCartState) ∧
   Forall (λ s, Forall quantityPositive (cart s))
     (history QuantityUpdate sampleCartState
        [DecreaseItemQuantity 6; AddItem (mkCartItem 1 "Margherita" 1 12 12);
         DecreaseItemQuantity 12; DecreaseItemQuantity 12; DecreaseItemQuantity 12])) ∧
  (Forall fromPages sampleSession ∧
   Forall (λ s, Forall quantityPositive (cart s))
     (history QuantityUpdate initialState sampleSession)).
Proof.
  split; [|split; [|split; [|split; [|split]]]].
  - split; [reflexivity|].
    exact (proj1 decrease_auto_removal sampleCartState 6 1%nat _ eq_refl eq_refl).
  - exact (proj1 (proj2 decrease_auto_removal) sampleCartState 6 1%nat _
             eq_refl eq_refl).
  - split; [reflexivity|].
    refine (proj1 (proj2 (proj2 decrease_auto_removal)) repeatedCart 1 0%nat _
              eq_refl _).
    simpl. lia.
  - assert (NoDup (pizzaId <$> cart sampleCartState)) as Hnd
      by (apply (bool_decide_unpack _); exact I).
    assert (mkCartItem 6 "Vegetale" 1 13 13 ∈ cart sampleCartState) as Hin
      by (apply list_elem_of_further, list_elem_of_here).
    split; [exact Hnd|]. split; [exact Hin|].
    exact (proj1 (proj2 (proj2 (proj2 decrease_auto_removal))) sampleCartState 6 _
             Hnd Hin eq_refl eq_refl).
  - assert (Forall addsPositive
              [DecreaseItemQuantity 6; AddItem (mkCartItem 1 "Margherita" 1 12 12);
               DecreaseItemQuantity 12; DecreaseItemQuantity 12;
               DecreaseItemQuantity 12]) as Hacts
      by each_item.
    assert (Forall quantityPositive (cart sampleCartState)) as Hinv
      by each_item.
    split; [exact Hacts|]. split; [exact Hinv|].
    exact (proj1 (proj2 (proj2 (proj2 (proj2 decrease_auto_removal))))
             sampleCartState _ Hacts Hinv).
  - assert (Forall fromPages sampleSession) as Hacts by each_item.
    split; [exact Hacts|].
    exact (proj2 (proj2 (proj2 (proj2 (proj2 decrease_auto_removal))))
             sampleSession Hacts).
Defined.

Lemma quantity_reducers_need_item_witness :
  ((∃ item, item ∈ cart sampleCartState ∧ pizzaId item = 6) ∧
   (∃ i item, findItem 6 (cart sampleCartState) = Some (i, item) ∧ pizzaId item = 6) ∧
   (∃ state', CartSlice.increaseItemQuantity sampleCartState 6 = Normal state') ∧
   (∃ state', decreaseOf QuantityUpdate sampleCartState 6 = Normal state')) ∧
  ((∀ item, item ∈ cart sampleCartState → pizzaId item ≠ 99) ∧
   findItem 99 (cart sampleCartState) = None ∧
   CartSlice.increaseItemQuantity sampleCartState 99 = Throw TypeError ∧
   decreaseOf CartOverview sampleCartState 99 = Throw TypeError ∧
   CartSlice.increaseItemQuantity sampleCartState 99 ≠ Normal sampleCartState ∧
   decreaseOf CartOverview sampleCartState 99 ≠ Normal sampleCartState).
Proof.
  split.
  - assert (∃ item, item ∈ cart sampleCartState ∧ pizzaId item = 6) as Hpresent.
    { exists (mkCartItem 6 "Vegetale" 1 13 13).
      split; [apply list_elem_of_further, list_elem_of_here | reflexivity]. }
    split; [exact Hpresent|].
    exact (proj1 quantity_reducers_need_item QuantityUpdate sampleCartState 6 Hpresent).
  - assert (∀ item, item ∈ cart sampleCartState → pizzaId item ≠ 99) as Habsent.
    { apply Forall_forall. repeat first [apply List.Forall_nil | apply List.Forall_cons];
        simpl; lia. }
    split; [exact Habsent|].
    exact (proj2 quantity_reducers_need_item CartOverview sampleCartState 99 Habsent).
Defined.

Lemma quantity_reducers_frame_witness :
  (∃ item, item ∈ cart sampleCartState ∧ pizzaId item = 12) ∧
  ∃ i item,
    cart sampleCartState !! i = Some item ∧ pizzaId item = 12 ∧
    (∃ state', CartSlice.increaseItemQuantity sampleCartState 12 = Normal state' ∧
               onlyQuantityChanged 1 i (cart sampleCartState) (cart state')) ∧
    (2 ≤ quantity item →
     ∃ state', decreaseOf QuantityUpdate sampleCartState 12 = Normal state' ∧
               onlyQuantityChanged (-1) i (cart sampleCartState) (cart state')).
Proof.
  assert (∃ item, item ∈ cart sampleCartState ∧ pizzaId item = 12) as Hpresent.
  { exists (mkCartItem 12 "Mediterranean" 2 16 32).
    split; [apply list_elem_of_here | reflexivity]. }
  split; [exact Hpresent|].
  exact (quantity_reducers_frame QuantityUpdate sampleCartState 12 Hpresent).
Defined.

Lemma phone_validation_gate_witness :
  (isValidPhone (phoneText brokenEntries) = false ∧
   snd (createOrderAction sampleUrl brokenEntries (answering 201 createdAnswer))
   = answering 201 createdAnswer) ∧
  (assembleOrder (fromEntries (CreateOrder margheritaStore (sampleTyped "123")))
   = Normal (formOrder "Ana" fakeCart (sampleTyped "123")) ∧
   isValidPhone (phoneText (CreateOrder margheritaStore (sampleTyped "123"))) = false ∧
   createOrderAction sampleUrl (CreateOrder margheritaStore (sampleTyped "123"))
     (answering 201 createdAnswer)
   = (Normal (FieldErrors phoneErrors), answering 201 createdAnswer) ∧
   phoneErrors !! "phone" = Some phoneMessage) ∧
  (assembleOrder
     (fromEntries (CreateOrder margheritaStore (sampleTyped "+1-555-123-4567")))
   = Normal (formOrder "Ana" fakeCart (sampleTyped "+1-555-123-4567")) ∧
   isValidPhone
     (phoneText (CreateOrder margheritaStore (sampleTyped "+1-555-123-4567"))) = true ∧
   ∃ result,
     createOrderAction sampleUrl
       (CreateOrder margheritaStore (sampleTyped "+1-555-123-4567"))
       (answering 201 createdAnswer)
     = (result,
        afterRequest (answering 201 createdAnswer)
          (createOrderRequest sampleUrl
             (JObj (formOrder "Ana" fakeCart (sampleTyped "+1-555-123-4567"))))) ∧
     ∀ errors, result ≠ Normal (FieldErrors errors)).
Proof.
  split; [|split].
  - assert (isValidPhone (phoneText brokenEntries) = false) as Hphone
      by (vm_compute; reflexivity).
    split; [exact Hphone|].
    exact (proj1 (proj1 (proj2 (proj2 phone_validation_gate)) sampleUrl brokenEntries
                    (answering 201 createdAnswer) Hphone)).
  - assert (assembleOrder (fromEntries (CreateOrder margheritaStore (sampleTyped "123")))
            = Normal (formOrder "Ana" fakeCart (sampleTyped "123"))) as Horder
      by (vm_compute; reflexivity).
    assert (isValidPhone (phoneText (CreateOrder margheritaStore (sampleTyped "123")))
            = false) as Hphone by (vm_compute; reflexivity).
    split; [exact Horder|]. split; [exact Hphone|].
    exact (proj1 (proj1 (proj2 (proj2 (proj2 phone_validation_gate))) sampleUrl _ _
                    (answering 201 createdAnswer) Horder) Hphone).
  - assert (assembleOrder
              (fromEntries (CreateOrder margheritaStore (sampleTyped "+1-555-123-4567")))
            = Normal (formOrder "Ana" fakeCart (sampleTyped "+1-555-123-4567")))
      as Horder by (vm_compute; reflexivity).
    assert (isValidPhone
              (phoneText (CreateOrder margheritaStore (sampleTyped "+1-555-123-4567")))
            = true) as Hphone by (vm_compute; reflexivity).
    split; [exact Horder|]. split; [exact Hphone|].
    exact (proj2 (proj1 (proj2 (proj2 (proj2 phone_validation_gate))) sampleUrl _ _
                    (answering 201 createdAnswer) Horder) Hphone).
Defined.

Lemma order_creation_outcomes_witness :
  (createOrder sampleUrl sampleOrder offline
   = (Throw creationFailed,
      afterRequest offline (createOrderRequest sampleUrl sampleOrder)) ∧
   createOrder sampleUrl sampleOrder (answering 500 failedAnswer)
   = (Throw creationFailed,
      afterRequest (answering 500 failedAnswer)
        (createOrderRequest sampleUrl sampleOrder)) ∧
   (createOrder sampleUrl sampleOrder garbled
    = (Throw (Error "Failed creating your order"),
       afterRequest garbled (createOrderRequest sampleUrl sampleOrder)) ∧
    Error "Failed creating your order" = creationFailed) ∧
   createOrder sampleUrl sampleOrder (answering 201 createdAnswer)
   = (Normal (Some (JObj [("id", JStr "ORD-1"); ("status", JStr "preparing")])),
      afterRequest (answering 201 createdAnswer)
        (createOrderRequest sampleUrl sampleOrder))) ∧
  (createOrderAction sampleUrl
     (CreateOrder margheritaStore (sampleTyped "+15551234567"))
     (answering 500 failedAnswer)
   = (Throw creationFailed,
      afterRequest (answering 500 failedAnswer)
        (createOrderRequest sampleUrl sampleOrder)) ∧
   createOrderAction sampleUrl
     (CreateOrder margheritaStore (sampleTyped "+15551234567"))
     (answering 201 createdAnswer)
   = (Normal (Redirect "/order/ORD-1"),
      afterRequest (answering 201 createdAnswer)
        (createOrderRequest sampleUrl sampleOrder))).
Proof.
  pose proof (proj1 order_creation_outcomes) as Hcreate.
  pose proof (proj2 order_creation_outcomes) as Haction.
  split.
  - split; [|split; [|split]].
    + exact (proj1 (Hcreate sampleUrl sampleOrder offline) eq_refl).
    + refine (proj1 (proj2 (Hcreate sampleUrl sampleOrder (answering 500 failedAnswer)))
                _ _ eq_refl _).
      lia.
    + assert (createOrder sampleUrl sampleOrder garbled
              = (Throw (Error "Failed creating your order"),
                 afterRequest garbled (createOrderRequest sampleUrl sampleOrder)))
        as Hthrown by (vm_compute; reflexivity).
      split; [exact Hthrown|].
      exact (proj1 (proj2 (proj2 (proj2 (Hcreate sampleUrl sampleOrder garbled))))
               _ _ Hthrown).
    + refine (proj2 (proj2 (proj2 (proj2
                (Hcreate sampleUrl sampleOrder (answering 201 createdAnswer)))))
                _ _ createdAnswer _ eq_refl _ _ _).
      * lia.
      * vm_compute. reflexivity.
      * reflexivity.
  - assert (assembleOrder
              (fromEntries (CreateOrder margheritaStore (sampleTyped "+15551234567")))
            = Normal (formOrder "Ana" fakeCart (sampleTyped "+15551234567")))
      as Horder by (vm_compute; reflexivity).
    assert (isValidPhone
              (phoneText (CreateOrder margheritaStore (sampleTyped "+15551234567")))
            = true) as Hphone by (vm_compute; reflexivity).
    split.
    + refine (proj1 (proj1 (Haction sampleUrl _ _ (answering 500 failedAnswer)
                              Horder Hphone) creationFailed _ _)).
      vm_compute. reflexivity.
    + refine (proj2 (Haction sampleUrl _ _ (answering 201 createdAnswer)
                       Horder Hphone)
                (JObj [("id", JStr "ORD-1"); ("status", JStr "preparing")])
                (JStr "ORD-1") _ _ _).
      * vm_compute. reflexivity.
      * reflexivity.
Defined.

Lemma order_retrieval_outcomes_witness :
  (getOrder sampleUrl "ORD-1" (answering 200 createdAnswer)
   = (Normal (Some (JObj [("id", JStr "ORD-1"); ("status", JStr "preparing")])),
      afterRequest (answering 200 createdAnswer) (getOrderRequest sampleUrl "ORD-1")) ∧
   getOrder sampleUrl "does-not-exist" (answering 404 failedAnswer)
   = (Throw (Error "Couldn't find order #does-not-exist"),
      afterRequest (answering 404 failedAnswer)
        (getOrderRequest sampleUrl "does-not-exist")) ∧
   getOrder sampleUrl "does-not-exist" offline
   = (Throw TypeError, afterRequest offline (getOrderRequest sampleUrl "does-not-exist"))) ∧
  Error "Couldn't find order #does-not-exist" ≠ TypeError.
Proof.
  pose proof (order_retrieval_outcomes sampleUrl "ORD-1" (answering 200 createdAnswer))
    as Hfound.
  pose proof (order_retrieval_outcomes sampleUrl "does-not-exist"
                (answering 404 failedAnswer)) as Hmissing.
  pose proof (order_retrieval_outcomes sampleUrl "does-not-exist" offline) as Hoffline.
  cbv zeta in Hfound, Hmissing, Hoffline.
  split; [split; [|split]|].
  - refine (proj1 (proj1 Hfound _ _ createdAnswer _ eq_refl _ _ _)).
    + lia.
    + vm_compute. reflexivity.
    + reflexivity.
  - refine (proj1 (proj1 (proj2 Hmissing) _ _ eq_refl _)). lia.
  - exact (proj1 (proj1 (proj2 (proj2 Hoffline)) eq_refl)).
  - exact (proj1 (proj2 (proj2 (proj2 Hmissing)))).
Defined.

(** * Further properties of the code *)

(** ** The totals of the cart overview *)

Lemma foldl_sumOver (f : CartItem → Z) items acc :
  foldl (λ sum item, sum + f item) acc items = acc + sumOver f items.
Proof.
  revert acc. induction items as [|x l IH]; intros acc; simpl; [lia|].
  rewrite IH. unfold sumOver. simpl. lia.
Qed.

Lemma totalQuantity_sum state :
  CartSlice.getTotalCartQuantity state = sumOver quantity (cart (cartSlice state)).
Proof. unfold CartSlice.getTotalCartQuantity. rewrite foldl_sumOver. lia. Qed.

Lemma totalPrice_sum state :
  CartSlice.getTotalCartPrice state = sumOver totalPrice (cart (cartSlice state)).
Proof. unfold CartSlice.getTotalCartPrice. rewrite foldl_sumOver. lia. Qed.

Lemma sumOver_app f l1 l2 : sumOver f (l1 ++ l2) = sumOver f l1 + sumOver f l2.
Proof.
  induction l1 as [|a l1 IH]; [done|].
  unfold sumOver in *. simpl. lia.
Qed.

Lemma sumOver_insert f l i x y :
  l !! i = Some x → sumOver f (<[i := y]> l) = sumOver f l - f x + f y.
Proof.
  revert i. induction l as [|a l IH]; intros [|i] Hi; simpl in *; try done.
  - injection Hi as ->. unfold sumOver. simpl. lia.
  - specialize (IH i Hi). unfold sumOver in *. simpl. lia.
Qed.

Lemma sumOver_split f id l :
  sumOver f l =
  sumOver f (filter (λ item, pizzaId item ≠ id) l)
  + sumOver f (filter (λ item, pizzaId item = id) l).
Proof.
  induction l as [|a l IH]; [done|].
  rewrite !filter_cons.
  destruct (decide (pizzaId a ≠ id)), (decide (pizzaId a = id)); try done;
    unfold sumOver in *; simpl; lia.
Qed.

Lemma filter_all {A} (P : A → Prop) `{∀ x, Decision (P x)} (l : list A) :
  Forall P l → filter P l = l.
Proof.
  induction 1 as [|a l Ha _ IH]; [done|].
  by rewrite filter_cons_True, IH.
Qed.

(** With unique ids, deleting by id takes exactly one item out of a sum. *)
Lemma sumOver_delete_unique f l i item :
  NoDup (pizzaId <$> l) → l !! i = Some item →
  sumOver f (filter (λ other, pizzaId other ≠ pizzaId item) l) = sumOver f l - f item.
Proof.
  revert i. induction l as [|a l IH]; intros [|i] Hnd Hi; simpl in *; try done.
  - injection Hi as ->. apply NoDup_cons in Hnd as [Hfresh _].
    rewrite filter_cons_False by (intros Hne; by apply Hne).
    rewrite filter_all.
    + unfold sumOver. simpl. lia.
    + apply Forall_forall. intros other Hin Heq. apply Hfresh.
      rewrite <- Heq. apply list_elem_of_fmap. by exists other.
  - apply NoDup_cons in Hnd as [Hfresh Hnd].
    rewrite filter_cons_True.
    + specialize (IH i Hnd Hi). unfold sumOver in *. simpl. lia.
    + intros Heq. apply Hfresh. rewrite Heq. apply list_elem_of_fmap.
      exists item. split; [done|]. by eapply list_elem_of_lookup_2.
Qed.

Lemma sumOver_count l : sumOver (λ _, 1) l = Z.of_nat (length l).
Proof.
  induction l as [|a l IH]; [done|]. unfold sumOver in *. simpl length. simpl foldr. lia.
Qed.

Lemma sumOver_positive l :
  Forall quantityPositive l → Z.of_nat (length l) ≤ sumOver quantity l.
Proof.
  induction 1 as [|a l Ha _ IH]; [done|].
  unfold quantityPositive in Ha. unfold sumOver in *. simpl length. simpl foldr. lia.
Qed.

(** X1. Adding an item raises the total quantity by the quantity of the
    payload, the total price by its totalPrice, and the number of lines by
    one, whatever the cart held (a pizza already in the cart gets a second
    line). *)
Theorem addItem_totals rev state payload :
  let state' := storeAfter rev state (AddItem payload) in
  CartSlice.getTotalCartQuantity state'
  = CartSlice.getTotalCartQuantity state + quantity payload ∧
  CartSlice.getTotalCartPrice state'
  = CartSlice.getTotalCartPrice state + totalPrice payload ∧
  getUniqueItemsCount state' = getUniqueItemsCount state + 1.
Proof.
  cbv zeta. rewrite !totalQuantity_sum, !totalPrice_sum. unfold getUniqueItemsCount.
  simpl. rewrite !sumOver_app, length_app. unfold sumOver. simpl. lia.
Qed.

(** X2. Increasing the quantity of an item that is in the cart raises the
    total quantity by one and leaves the number of lines as it was. *)
Theorem increase_total_quantity rev state id i item :
  findItem id (cart (cartSlice state)) = Some (i, item) →
  let state' := storeAfter rev state (IncreaseItemQuantity id) in
  CartSlice.getTotalCartQuantity state' = CartSlice.getTotalCartQuantity state + 1 ∧
  getUniqueItemsCount state' = getUniqueItemsCount state.
Proof.
  intros Hfind. cbv zeta.
  destruct (findItem_Some _ _ _ _ Hfind) as (Hi & _ & _).
  rewrite !totalQuantity_sum. unfold getUniqueItemsCount.
  unfold storeAfter, dispatch. simpl. rewrite increase_unfold, Hfind. simpl.
  rewrite (sumOver_insert _ _ _ item) by done. rewrite length_insert.
  simpl. lia.
Qed.

Lemma increase_total_quantity_witness :
  CartSlice.getTotalCartQuantity (storeAfter CartOverview filledStore (IncreaseItemQuantity 6))
  = CartSlice.getTotalCartQuantity filledStore + 1.
Proof.
  refine (proj1 (increase_total_quantity CartOverview filledStore 6 1%nat
                   (mkCartItem 6 "Vegetale" 1 13 13) _)).
  reflexivity.
Defined.

(** X3. With unique pizzaIds, decreasing the quantity of an item that is in
    the cart lowers the total quantity by one, in both revisions of the
    slice: the item removed at quantity zero no longer counted. *)
Theorem decrease_total_quantity rev state id i item :
  NoDup (pizzaId <$> cart (cartSlice state)) →
  findItem id (cart (cartSlice state)) = Some (i, item) →
  let state' := storeAfter rev state (DecreaseItemQuantity id) in
  CartSlice.getTotalCartQuantity state' = CartSlice.getTotalCartQuantity state - 1.
Proof.
  intros Hnd Hfind. cbv zeta.
  destruct (findItem_Some _ _ _ _ Hfind) as (Hi & Hid & _).
  rewrite !totalQuantity_sum.
  unfold storeAfter, dispatch. simpl.
  assert (∀ rev', quantity item ≠ 1 ∨ rev' = CartOverview →
            sumOver quantity (cart (match decreaseOf rev' (cartSlice state) id with
                                    | Normal state' => state'
                                    | Throw _ => cartSlice state
                                    end))
            = sumOver quantity (cart (cartSlice state)) - 1) as Hkeep.
  { intros rev' Hcase.
    assert (decreaseOf rev' (cartSlice state) id
            = Normal {| cart := <[i := bumpQuantity (-1) item]> (cart (cartSlice state)) |})
      as ->.
    { destruct Hcase as [Hq | ->].
      - by apply (decrease_no_removal rev' _ _ _ _ Hfind).
      - simpl. unfold CartSlice.decreaseItemQuantity. by rewrite Hfind. }
    simpl. rewrite (sumOver_insert _ _ _ item) by done. simpl. lia. }
  destruct rev; [apply Hkeep; by right|].
  destruct (decide (quantity item = 1)) as [Hone|Hq]; [|apply Hkeep; by left].
  simpl. rewrite (decrease_last_unit _ _ _ _ Hfind Hone). simpl. subst id.
  rewrite (sumOver_delete_unique _ _ i item) by done. lia.
Qed.

Lemma decrease_total_quantity_witness :
  CartSlice.getTotalCartQuantity (storeAfter QuantityUpdate filledStore (DecreaseItemQuantity 6))
  = CartSlice.getTotalCartQuantity filledStore - 1.
Proof.
  refine (decrease_total_quantity QuantityUpdate filledStore 6 1%nat
            (mkCartItem 6 "Vegetale" 1 13 13) _ _).
  - apply (bool_decide_unpack _). by vm_compute.
  - reflexivity.
Defined.

(** X4. Deleting by pizzaId takes out of the total quantity exactly the
    quantities of the items of that pizzaId, duplicates included, and out of
    the number of lines the number of those items. *)
Theorem deleteItem_total_quantity rev state id :
  let state' := storeAfter rev state (DeleteItem id) in
  let deleted := filter (λ item, pizzaId item = id) (cart (cartSlice state)) in
  CartSlice.getTotalCartQuantity state'
  = CartSlice.getTotalCartQuantity state - sumOver quantity deleted ∧
  getUniqueItemsCount state' = getUniqueItemsCount state - Z.of_nat (length deleted).
Proof.
  cbv zeta. rewrite !totalQuantity_sum. unfold getUniqueItemsCount. simpl.
  pose proof (sumOver_split quantity id (cart (cartSlice state))).
  pose proof (sumOver_split (λ _, 1) id (cart (cartSlice state))) as Hlen.
  rewrite !sumOver_count in Hlen. lia.
Qed.

(** X5. When every item of the cart has a quantity of at least one, the
    cart overview renders nothing exactly when the cart is empty. *)
Theorem overview_hidden_iff_empty state :
  Forall quantityPositive (cart (cartSlice state)) →
  renderCartOverview state = None ↔ CartSlice.getIsCartEmpty state = true.
Proof.
  intros Hpos. unfold renderCartOverview, CartSlice.getIsCartEmpty.
  rewrite totalQuantity_sum. pose proof (sumOver_positive _ Hpos) as Hle.
  rewrite bool_decide_eq_true.
  case_bool_decide as Hzero; split; try done.
  - intros _. lia.
  - intros Hlen. destruct (cart (cartSlice state)); [|done].
    by contradict Hzero.
Qed.

Lemma overview_hidden_iff_empty_witness :
  renderCartOverview filledStore = None ↔ CartSlice.getIsCartEmpty filledStore = true.
Proof.
  apply overview_hidden_iff_empty. simpl.
  repeat (apply List.Forall_cons; [unfold quantityPositive; simpl; lia|]).
  apply List.Forall_nil.
Defined.

(** X6. When every item of the cart has a quantity of at least one, the
    number of lines is at most the total quantity. *)
Theorem lines_at_most_total_quantity state :
  Forall quantityPositive (cart (cartSlice state)) →
  getUniqueItemsCount state ≤ CartSlice.getTotalCartQuantity state.
Proof.
  intros Hpos. rewrite totalQuantity_sum. by apply sumOver_positive.
Qed.

Lemma lines_at_most_total_quantity_witness :
  getUniqueItemsCount filledStore ≤ CartSlice.getTotalCartQuantity filledStore.
Proof.
  apply lines_at_most_total_quantity. simpl.
  repeat (apply List.Forall_cons; [unfold quantityPositive; simpl; lia|]).
  apply List.Forall_nil.
Defined.

Lemma sumOver_ext f g l :
  Forall (λ item, f item = g item) l → sumOver f l = sumOver g l.
Proof.
  induction 1 as [|a l Ha _ IH]; [done|]. unfold sumOver in *. simpl. lia.
Qed.

(** X7. In every state reached from the empty cart by actions of the pages
    (items enter through the add-to-cart handler of the menu), the total
    price of the overview is the sum of quantity times unit price over the
    items, in both revisions of the slice. *)
Theorem total_price_of_history rev actions user :
  Forall fromPages actions →
  Forall (λ s, CartSlice.getTotalCartPrice {| userSlice := user; cartSlice := s |}
               = sumOver (λ item, quantity item * unitPrice item) (cart s))
         (history rev initialState actions).
Proof.
  intros Hpages.
  assert (Forall addsInSync actions) as Hsync.
  { eapply Forall_impl; [exact Hpages|]. apply fromPages_inSync. }
  pose proof (history_invariant rev priceInSync addsInSync
                (dispatch_keeps_inSync rev) actions initialState Hsync
                (List.Forall_nil _)) as Hinv.
  eapply Forall_impl; [exact Hinv|]. intros s Hs. simpl in Hs.
  rewrite totalPrice_sum. simpl. by apply sumOver_ext.
Qed.

Lemma total_price_of_history_witness :
  Forall (λ s, CartSlice.getTotalCartPrice
                 {| userSlice := UserSlice.initialState; cartSlice := s |}
               = sumOver (λ item, quantity item * unitPrice item) (cart s))
         (history QuantityUpdate initialState sampleSession).
Proof.
  apply total_price_of_history.
  unfold sampleSession.
  repeat (apply List.Forall_cons; [simpl; try done; by eexists|]).
  apply List.Forall_nil.
Defined.

(** ** Looking an item up after the cart changed *)

Lemma getById_cons id a l :
  snd <$> findItem id (a :: l)
  = if decide (pizzaId a = id) then Some a else snd <$> findItem id l.
Proof.
  unfold findItem. simpl. case_decide; [done|].
  by destruct (list_find _ l) as [[j x]|].
Qed.

Lemma getById_app id l p :
  snd <$> findItem id (l ++ [p])
  = match snd <$> findItem id l with
    | Some found => Some found
    | None => if decide (pizzaId p = id) then Some p else None
    end.
Proof.
  induction l as [|a l IH].
  - rewrite app_nil_l, getById_cons. by case_decide.
  - rewrite <- app_comm_cons, !getById_cons.
    by destruct (decide (pizzaId a = id)).
Qed.

Lemma getById_filter id id' l :
  id' ≠ id →
  snd <$> findItem id' (filter (λ item, pizzaId item ≠ id) l) = snd <$> findItem id' l.
Proof.
  intros Hne. induction l as [|a l IH]; [done|].
  rewrite filter_cons, (getById_cons id' a l).
  destruct (decide (pizzaId a ≠ id)) as [Hkeep|Hdrop].
  - rewrite getById_cons. by case_decide.
  - rewrite IH. case_decide; [|done]. contradict Hdrop. congruence.
Qed.

Lemma findItem_deleted id l :
  findItem id (filter (λ item, pizzaId item ≠ id) l) = None.
Proof.
  apply findItem_absent. intros item Hin. by apply list_elem_of_filter in Hin as [? _].
Qed.

Lemma findItem_insert_same id l i item item' :
  findItem id l = Some (i, item) → pizzaId item' = id →
  findItem id (<[i := item']> l) = Some (i, item').
Proof.
  intros Hfind Hid. destruct (findItem_Some _ _ _ _ Hfind) as (Hi & _ & Hfirst).
  unfold findItem. apply list_find_Some. split; [|split; [done|]].
  - apply list_lookup_insert_eq. by eapply lookup_lt_Some.
  - intros j other Hj Hlt. rewrite list_lookup_insert_ne in Hj by lia.
    by eapply Hfirst.
Qed.

(** X8. After deleteItem the lookup by that pizzaId finds nothing, and the
    lookup by any other pizzaId finds what it found before. *)
Theorem lookup_after_delete rev state id :
  let state' := storeAfter rev state (DeleteItem id) in
  CartSlice.getCartItemById id state' = None ∧
  ∀ id', id' ≠ id →
         CartSlice.getCartItemById id' state' = CartSlice.getCartItemById id' state.
Proof.
  cbv zeta. unfold CartSlice.getCartItemById. simpl. split.
  - by rewrite findItem_deleted.
  - intros id' Hne. by apply getById_filter.
Qed.

(** X9. addItem never merges: the lookup by pizzaId still finds the line
    that was found before; only when there was none does it find the added
    payload, if that carries the pizzaId. *)
Theorem lookup_after_add rev state payload id :
  CartSlice.getCartItemById id (storeAfter rev state (AddItem payload))
  = match CartSlice.getCartItemById id state with
    | Some found => Some found
    | None => if decide (pizzaId payload = id) then Some payload else None
    end.
Proof. unfold CartSlice.getCartItemById. simpl. apply getById_app. Qed.

(** X10. Deleting the same pizzaId twice is deleting it once, and two
    deletions can be swapped. *)
Theorem deleteItem_idempotent_commutes rev state id id' :
  dispatch rev (dispatch rev state (DeleteItem id)) (DeleteItem id)
  = dispatch rev state (DeleteItem id) ∧
  dispatch rev (dispatch rev state (DeleteItem id)) (DeleteItem id')
  = dispatch rev (dispatch rev state (DeleteItem id')) (DeleteItem id).
Proof.
  unfold dispatch. simpl. split; f_equal.
  - apply filter_all. apply Forall_forall. intros item Hin.
    by apply list_elem_of_filter in Hin as [? _].
  - rewrite !list_filter_filter. apply list_filter_iff. tauto.
Qed.

(** X11. Deleting a pizzaId that no item of the cart carries leaves the
    state as it was. *)
Theorem deleteItem_absent rev state id :
  findItem id (cart state) = None → dispatch rev state (DeleteItem id) = state.
Proof.
  intros Hfind. unfold dispatch. simpl. destruct state as [items]. simpl in *.
  f_equal. apply filter_all. apply Forall_forall. intros item Hin Hid.
  destruct (findItem_present id items) as (i & found & Hfound); [by exists item|].
  congruence.
Qed.

Lemma deleteItem_absent_witness :
  dispatch CartOverview sampleCartState (DeleteItem 1) = sampleCartState.
Proof. apply deleteItem_absent. reflexivity. Defined.

Lemma bump_back item :
  priceInSync item → bumpQuantity (-1) (bumpQuantity 1 item) = item.
Proof.
  unfold priceInSync. destruct item as [pid nm q u t]. simpl. intros ->.
  unfold bumpQuantity, withTotalPrice, withQuantity. simpl. f_equal; lia.
Qed.

Lemma bump_forth item :
  priceInSync item → bumpQuantity 1 (bumpQuantity (-1) item) = item.
Proof.
  unfold priceInSync. destruct item as [pid nm q u t]. simpl. intros ->.
  unfold bumpQuantity, withTotalPrice, withQuantity. simpl. f_equal; lia.
Qed.

(** X12. Pressing plus and then minus on an item that is in the cart and in
    sync gives back the state; in the revision that removes at zero this
    needs the quantity to differ from zero at the start. *)
Theorem increase_then_decrease rev state id i item :
  findItem id (cart state) = Some (i, item) → priceInSync item →
  (rev = QuantityUpdate → quantity item ≠ 0) →
  dispatch rev (dispatch rev state (IncreaseItemQuantity id)) (DecreaseItemQuantity id)
  = state.
Proof.
  intros Hfind Hsync Hq. destruct (findItem_Some _ _ _ _ Hfind) as (Hi & Hid & _).
  unfold dispatch at 2. simpl. rewrite increase_unfold, Hfind.
  pose proof (findItem_insert_same id (cart state) i item (bumpQuantity 1 item) Hfind Hid)
    as Hfind'.
  unfold dispatch. simpl.
  assert (decreaseOf rev {| cart := <[i := bumpQuantity 1 item]> (cart state) |} id
          = Normal {| cart := <[i := bumpQuantity (-1) (bumpQuantity 1 item)]>
                                (<[i := bumpQuantity 1 item]> (cart state)) |}) as ->.
  { destruct rev; simpl.
    - unfold CartSlice.decreaseItemQuantity. simpl. by rewrite Hfind'.
    - apply (decrease_no_removal QuantityUpdate
               {| cart := <[i := bumpQuantity 1 item]> (cart state) |} id i
               (bumpQuantity 1 item) Hfind').
      simpl. specialize (Hq eq_refl). lia. }
  rewrite list_insert_insert_eq, bump_back by done.
  rewrite list_insert_id by done. by destruct state.
Qed.

Lemma increase_then_decrease_witness :
  dispatch QuantityUpdate
    (dispatch QuantityUpdate sampleCartState (IncreaseItemQuantity 6))
    (DecreaseItemQuantity 6)
  = sampleCartState.
Proof.
  apply (increase_then_decrease QuantityUpdate sampleCartState 6 1%nat
           (mkCartItem 6 "Vegetale" 1 13 13)).
  - reflexivity.
  - reflexivity.
  - intros _. simpl. lia.
Defined.

(** X13. In the revision without removal, pressing minus and then plus on
    an item that is in the cart and in sync gives back the state, also when
    the quantity passes through zero. *)
Theorem decrease_then_increase_overview state id i item :
  findItem id (cart state) = Some (i, item) → priceInSync item →
  dispatch CartOverview (dispatch CartOverview state (DecreaseItemQuantity id))
    (IncreaseItemQuantity id)
  = state.
Proof.
  intros Hfind Hsync. destruct (findItem_Some _ _ _ _ Hfind) as (Hi & Hid & _).
  unfold dispatch at 2. simpl. unfold CartSlice.decreaseItemQuantity. rewrite Hfind.
  pose proof (findItem_insert_same id (cart state) i item (bumpQuantity (-1) item)
                Hfind Hid) as Hfind'.
  unfold dispatch. simpl. rewrite increase_unfold. simpl. rewrite Hfind'.
  rewrite list_insert_insert_eq, bump_forth by done.
  rewrite list_insert_id by done. by destruct state.
Qed.

Lemma decrease_then_increase_overview_witness :
  dispatch CartOverview
    (dispatch CartOverview sampleCartState (DecreaseItemQuantity 6))
    (IncreaseItemQuantity 6)
  = sampleCartState.
Proof.
  apply (decrease_then_increase_overview sampleCartState 6 1%nat
           (mkCartItem 6 "Vegetale" 1 13 13)); reflexivity.
Defined.

(** X14. In the revision that removes at zero, pressing minus on the last
    unit and then plus does not bring the item back: the minus deletes the
    item, the plus finds none and throws, and the state is the one
    deleteItem gives. *)
Theorem decrease_then_increase_last_unit state id i item :
  findItem id (cart state) = Some (i, item) → quantity item = 1 →
  let state' := dispatch QuantityUpdate state (DecreaseItemQuantity id) in
  state' = dispatch QuantityUpdate state (DeleteItem id) ∧
  cartReducer QuantityUpdate state' (IncreaseItemQuantity id) = Throw TypeError ∧
  dispatch QuantityUpdate state' (IncreaseItemQuantity id) = state'.
Proof.
  intros Hfind Hone. cbv zeta. unfold dispatch. simpl.
  rewrite (decrease_last_unit _ _ _ _ Hfind Hone). simpl.
  rewrite increase_unfold. simpl. by rewrite findItem_deleted.
Qed.

Lemma decrease_then_increase_last_unit_witness :
  dispatch QuantityUpdate
    (dispatch QuantityUpdate sampleCartState (DecreaseItemQuantity 6))
    (IncreaseItemQuantity 6)
  = dispatch QuantityUpdate sampleCartState (DeleteItem 6).
Proof.
  pose proof (decrease_then_increase_last_unit sampleCartState 6 1%nat
                (mkCartItem 6 "Vegetale" 1 13 13) eq_refl eq_refl) as H.
  cbv zeta in H. destruct H as (Hdel & _ & Hstay).
  rewrite Hstay. exact Hdel.
Defined.

(** ** Entering the name *)

(** X15. handleSubmit with an empty name does nothing at all and calls no
    navigation; with any other name it navigates to /menu after storing the
    name, which the header then shows and which counts as logged in; in
    both cases the cart and the requests sent are as before. *)
Theorem handleSubmit_guard name w :
  (name = EmptyString → CreateUser.handleSubmit name w = (Normal None, w)) ∧
  (name ≠ EmptyString →
   ∃ w', CreateUser.handleSubmit name w = (Normal (Some "/menu"), w') ∧
         UserSlice.selectUsername (store w') = name ∧
         UserSlice.selectIsLoggedIn (store w') = true ∧
         renderUsername (store w') = Some name ∧
         cartSlice (store w') = cartSlice (store w) ∧
         sent w' = sent w ∧ respond w' = respond w).
Proof.
  unfold CreateUser.handleSubmit. split.
  - by intros ->.
  - intros Hname. apply String.eqb_neq in Hname. rewrite Hname.
    eexists. split; [reflexivity|]. simpl.
    unfold UserSlice.selectUsername, UserSlice.selectIsLoggedIn, renderUsername.
    simpl. by rewrite Hname.
Qed.

Lemma handleSubmit_guard_witness :
  CreateUser.handleSubmit EmptyString offline = (Normal None, offline) ∧
  ∃ w', CreateUser.handleSubmit "Bea" offline = (Normal (Some "/menu"), w') ∧
        UserSlice.selectUsername (store w') = "Bea".
Proof.
  split.
  - exact (proj1 (handleSubmit_guard EmptyString offline) eq_refl).
  - destruct (proj2 (handleSubmit_guard "Bea" offline)) as (w' & Hrun & Hname & _).
    + discriminate.
    + exists w'. by split.
Defined.

(** X16. The name entered on the start page reaches the API: when the
    customer leaves the prefilled name of the order form as it is and the
    phone passes the pattern, entering a name and then submitting the order
    sends one request, whose body is the order with that name as
    customer. *)
Theorem name_reaches_order url name typed w :
  name ≠ EmptyString → typedCustomer typed = None →
  isValidPhone (typedPhone typed) = true →
  let order := formOrder name fakeCart typed in
  sent (snd ((_ <~ CreateUser.handleSubmit name ;; submitOrder url typed) w))
  = sent w ++ [createOrderRequest url (JObj order)] ∧
  lookupProp "customer" order = Some (JStr name).
Proof.
  intros Hname Hcustomer Hphone. cbv zeta. split.
  - unfold bind, CreateUser.handleSubmit. apply String.eqb_neq in Hname.
    rewrite Hname. simpl. unfold submitOrder, CreateOrder. simpl.
    match goal with
    | |- context [createOrderAction url ?fd ?w1] =>
        destruct (action_calls_api url fd (formOrder name fakeCart typed) w1)
          as (result & -> & _)
    end.
    + apply assembleOrder_form.
    + by rewrite phoneText_form.
    + reflexivity.
  - unfold formOrder. rewrite Hcustomer. reflexivity.
Qed.

Lemma name_reaches_order_witness :
  sent (snd ((_ <~ CreateUser.handleSubmit "Bea" ;;
              submitOrder sampleUrl (sampleTyped "+15551234567")) offline))
  = [createOrderRequest sampleUrl
       (JObj (formOrder "Bea" fakeCart (sampleTyped "+15551234567")))].
Proof.
  refine (proj1 (name_reaches_order sampleUrl "Bea" (sampleTyped "+15551234567")
                   offline _ eq_refl _)).
  - discriminate.
  - vm_compute. reflexivity.
Defined.

(** ** Loading the menu *)

Lemma getMenu_unfold w :
  ApiRestaurant.getMenu w =
  let w' := afterRequest w getMenuRequest in
  match respond w getMenuRequest with
  | NetworkError => (Throw TypeError, w')
  | HttpResponse st tx =>
      if bool_decide (200 ≤ st ≤ 299) then
        match JSON.parse tx with
        | Normal parsed => (getProperty (Some parsed) "data", w')
        | Throw e => (Throw e, w')
        end
      else (Throw (Error "Failed getting menu"), w')
  end.
Proof.
  unfold ApiRestaurant.getMenu, bind, fetch, json, lift, ret, throw, ok,
    afterRequest, getMenuRequest.
  cbv zeta. destruct (respond w _) as [|st tx]; [done|].
  cbn [status text]. case_bool_decide; cbn [negb]; [|done].
  destruct (JSON.parse tx) as [parsed|e]; [|done].
  by destruct (getProperty (Some parsed) "data").
Qed.

Lemma menuLoader_getMenu w : ApiRestaurant.menuLoader w = ApiRestaurant.getMenu w.
Proof.
  unfold ApiRestaurant.menuLoader, bind, ret.
  by destruct (ApiRestaurant.getMenu w) as [[data|e] w'].
Qed.

(** X17. The menu loader sends exactly one GET request, to the menu
    address of the API, and leaves the store alone.  It rejects with a
    TypeError when the network fails, throws the error Failed getting menu
    for every status outside 200-299 whatever the body says, and for a
    status in that range it returns the data property of what the body
    parses to, or throws what reading that property throws. *)
Theorem menu_loading_outcomes w :
  let w' := afterRequest w getMenuRequest in
  snd (ApiRestaurant.menuLoader w) = w' ∧
  store (snd (ApiRestaurant.menuLoader w)) = store w ∧
  (respond w getMenuRequest = NetworkError →
   ApiRestaurant.menuLoader w = (Throw TypeError, w')) ∧
  (∀ st tx, respond w getMenuRequest = HttpResponse st tx → ¬ (200 ≤ st ≤ 299) →
            ApiRestaurant.menuLoader w = (Throw (Error "Failed getting menu"), w')) ∧
  (∀ st tx parsed,
     respond w getMenuRequest = HttpResponse st tx → 200 ≤ st ≤ 299 →
     JSON.parse tx = Normal parsed →
     ApiRestaurant.menuLoader w = (getProperty (Some parsed) "data", w')).
Proof.
  cbv zeta. rewrite !menuLoader_getMenu, getMenu_unfold. cbv zeta.
  assert (snd (match respond w getMenuRequest with
               | NetworkError => (Throw TypeError, afterRequest w getMenuRequest)
               | HttpResponse st tx =>
                   if bool_decide (200 ≤ st ≤ 299) then
                     match JSON.parse tx with
                     | Normal parsed =>
                         (getProperty (Some parsed) "data", afterRequest w getMenuRequest)
                     | Throw e => (Throw e, afterRequest w getMenuRequest)
                     end
                   else (Throw (Error "Failed getting menu"),
                         afterRequest w getMenuRequest)
               end) = afterRequest w getMenuRequest) as Hsent.
  { destruct (respond w getMenuRequest) as [|st tx]; [done|].
    case_bool_decide; [|done]. by destruct (JSON.parse tx). }
  split; [exact Hsent|]. split; [by rewrite Hsent|].
  split; [|split].
  - by intros ->.
  - intros st tx -> Hst. by rewrite bool_decide_eq_false_2.
  - intros st tx parsed -> Hst Hparse. rewrite bool_decide_eq_true_2 by done.
    by rewrite Hparse.
Qed.

Lemma menu_loading_outcomes_witness :
  ApiRestaurant.menuLoader offline = (Throw TypeError, afterRequest offline getMenuRequest) ∧
  ApiRestaurant.menuLoader (answering 500 failedAnswer)
  = (Throw (Error "Failed getting menu"),
     afterRequest (answering 500 failedAnswer) getMenuRequest) ∧
  ApiRestaurant.menuLoader (answering 200 createdAnswer)
  = (Normal (Some (JObj [("id", JStr "ORD-1"); ("status", JStr "preparing")])),
     afterRequest (answering 200 createdAnswer) getMenuRequest).
Proof.
  split; [|split].
  - exact (proj1 (proj2 (proj2 (menu_loading_outcomes offline))) eq_refl).
  - refine (proj1 (proj2 (proj2 (proj2 (menu_loading_outcomes (answering 500 failedAnswer)))))
              500 _ eq_refl _).
    lia.
  - refine (proj2 (proj2 (proj2 (proj2
              (menu_loading_outcomes (answering 200 createdAnswer)))))
              200 _ createdAnswer eq_refl _ _).
    + lia.
    + vm_compute. reflexivity.
Defined.

(** ** The three versions of the route action *)

Lemma setProp_text props kv :
  Forall isText props → isText kv → Forall isText (JSON.setProp props kv).
Proof.
  intros Hprops Hkv. induction Hprops as [|[k v] rest Hhead Hrest IH]; simpl.
  - by constructor.
  - destruct (String.eqb k (fst kv)).
    + apply List.Forall_cons; [exact Hkv | exact Hrest].
    + apply List.Forall_cons; [exact Hhead | exact IH].
Qed.

Lemma fromEntries_text formData : Forall isText (fromEntries formData).
Proof.
  unfold fromEntries.
  assert (∀ entries acc, Forall isText acc →
            Forall isText
              (foldl JSON.setProp acc ((λ kv, (fst kv, JStr (snd kv))) <$> entries)))
    as Hgen.
  { induction entries as [|e rest IH]; intros acc Hacc; [done|].
    simpl. apply IH. apply setProp_text; [done|]. by eexists. }
  apply Hgen. constructor.
Qed.

Lemma lookupProp_text key props :
  Forall isText props → ∀ v, lookupProp key props = Some v → ∃ s, v = JStr s.
Proof.
  induction 1 as [|[k v0] rest Hhead _ IH]; intros v; simpl; [done|].
  destruct (String.eqb k key); [|by apply IH].
  intros [= <-]. exact Hhead.
Qed.

(** Every value of the object built from the entries is a string, so
    [field] loses nothing. *)
Lemma field_spec key formData :
  lookupProp key (fromEntries formData) = JStr <$> field key formData.
Proof.
  unfold field.
  destruct (lookupProp key (fromEntries formData)) as [v|] eqn:Hlook; [|done].
  destruct (lookupProp_text key _ (fromEntries_text formData) v Hlook) as [s ->].
  done.
Qed.

Lemma firstAction_unfold url formData w :
  ActionLesson.createOrderAction url formData w =
  match assembleOrder (fromEntries formData) with
  | Throw e => (Throw e, w)
  | Normal order =>
      match createOrder url (JObj order) w with
      | (Normal newOrder, w') =>
          match getProperty newOrder "id" with
          | Normal id => (Normal (Redirect ("/order/" +:+ toString id)), w')
          | Throw e => (Throw e, w')
          end
      | (Throw e, w') => (Throw e, w')
      end
  end.
Proof.
  unfold ActionLesson.createOrderAction, bind, lift, ret. cbv zeta.
  destruct (assembleOrder (fromEntries formData)) as [order|e]; [|done].
  destruct (createOrder url (JObj order) w) as [[newOrder|e] w']; [|done].
  by destruct (getProperty newOrder "id").
Qed.

Lemma firstAction_never_errors url formData w errors w' :
  ActionLesson.createOrderAction url formData w ≠ (Normal (FieldErrors errors), w').
Proof.
  rewrite firstAction_unfold.
  destruct (assembleOrder (fromEntries formData)) as [order|e]; [|done].
  destruct (createOrder url (JObj order) w) as [[newOrder|e] w1]; [|done].
  by destruct (getProperty newOrder "id").
Qed.

(** X18. The phone guard only adds a rejection: on every submission the
    guarded action either behaves exactly as the action written before the
    guard, or it returns the phone error without having sent anything, and
    the latter only for a phone the pattern rejects. *)
Theorem guard_only_adds_rejection url formData w :
  createOrderAction url formData w = ActionLesson.createOrderAction url formData w ∨
  (createOrderAction url formData w = (Normal (FieldErrors phoneErrors), w) ∧
   isValidPhone (phoneText formData) = false).
Proof.
  rewrite createOrderAction_unfold, firstAction_unfold.
  destruct (assembleOrder (fromEntries formData)) as [order|e] eqn:Horder; [|by left].
  rewrite (phoneText_order _ _ Horder).
  destruct (isValidPhone (phoneText formData)); [by left | by right].
Qed.

(** X19. Without the guard every submission whose cart field parses is
    sent to the API, whatever the phone field holds, and the action never
    hands field errors back to the form. *)
Theorem first_action_always_sends url formData order w :
  assembleOrder (fromEntries formData) = Normal order →
  snd (ActionLesson.createOrderAction url formData w)
  = afterRequest w (createOrderRequest url (JObj order)) ∧
  ∀ errors, fst (ActionLesson.createOrderAction url formData w)
            ≠ Normal (FieldErrors errors).
Proof.
  intros Horder. split.
  - rewrite firstAction_unfold, Horder.
    pose proof (createOrder_sends url (JObj order) w) as Hsent.
    destruct (createOrder url (JObj order) w) as [[newOrder|e] w1]; simpl in *;
      [|done].
    by destruct (getProperty newOrder "id").
  - intros errors Heq.
    destruct (ActionLesson.createOrderAction url formData w) as [result w1] eqn:Hrun.
    simpl in Heq. subst result.
    by apply firstAction_never_errors in Hrun.
Qed.

Lemma first_action_always_sends_witness :
  snd (ActionLesson.createOrderAction sampleUrl
         (CreateOrder margheritaStore (sampleTyped "abc")) offline)
  = afterRequest offline
      (createOrderRequest sampleUrl (JObj (formOrder "Ana" fakeCart (sampleTyped "abc")))).
Proof.
  refine (proj1 (first_action_always_sends sampleUrl _ _ offline _)).
  apply assembleOrder_form.
Defined.

Lemma size_insert_positive (key value : string) (errors : gmap string string) :
  bool_decide (0 < size (<[key := value]> errors))%nat = true.
Proof.
  apply bool_decide_eq_true_2.
  pose proof (insert_non_empty errors key value) as Hne.
  apply map_size_non_empty_iff in Hne. lia.
Qed.

Lemma validatedAction_unfold url formData w :
  FormValidation.createOrderAction url formData w =
  match field "phone" formData with
  | None => (Throw TypeError, w)
  | Some phone =>
      if bool_decide (Z.of_nat (String.length phone) < 10) then
        (Normal (FieldErrors
                   (<["phone" := "Phone must be at least 10 digits"]>
                      (if isFalsy (field "customer" formData)
                       then <["customer" := "Name is required"]> ∅ else ∅))), w)
      else if isFalsy (field "customer" formData) then
        (Normal (FieldErrors (<["customer" := "Name is required"]> ∅)), w)
      else ActionLesson.createOrderAction url formData w
  end.
Proof.
  unfold FormValidation.createOrderAction, ActionLesson.createOrderAction.
  cbv zeta. unfold bind at 1. unfold lift at 1.
  destruct (field "phone" formData) as [phone|]; [|done].
  cbn [lengthOf].
  destruct (bool_decide (Z.of_nat (String.length phone) < 10)) eqn:Hshort.
  - assert (∀ errors : gmap string string,
              <["phone" := "Phone must be at least 10 digits"]>
                (if isFalsy (Some phone) then <["phone" := "Phone is required"]> errors
                 else errors)
              = <["phone" := "Phone must be at least 10 digits"]> errors) as ->.
    { intros errors. destruct (isFalsy (Some phone)); [|done].
      by rewrite insert_insert_eq. }
    by rewrite size_insert_positive.
  - assert (isFalsy (Some phone) = false) as ->.
    { destruct phone; [done | done]. }
    destruct (isFalsy (field "customer" formData)).
    + by rewrite size_insert_positive.
    + rewrite map_size_empty. by rewrite bool_decide_eq_false_2 by lia.
Qed.

(** X20. In the action with field validation a submission without a phone
    entry is not reported as a field error: reading the length of the
    missing value throws a TypeError, and nothing is sent. *)
Theorem validation_missing_phone_throws url formData w :
  field "phone" formData = None →
  FormValidation.createOrderAction url formData w = (Throw TypeError, w).
Proof. intros Hphone. by rewrite validatedAction_unfold, Hphone. Qed.

Lemma validation_missing_phone_throws_witness :
  FormValidation.createOrderAction sampleUrl [("customer", "Ana")] offline
  = (Throw TypeError, offline).
Proof. apply validation_missing_phone_throws. reflexivity. Defined.

(** X21. The action with field validation never reports Phone is required:
    whenever it hands errors back, the phone entry is either absent or the
    message about ten digits, which overwrites the other one for an empty
    phone. *)
Theorem validation_never_says_required url formData w errors w' :
  FormValidation.createOrderAction url formData w = (Normal (FieldErrors errors), w') →
  errors !! "phone" = None ∨
  errors !! "phone" = Some "Phone must be at least 10 digits".
Proof.
  rewrite validatedAction_unfold.
  destruct (field "phone" formData) as [phone|]; [|done].
  case_bool_decide.
  - intros [= <- _]. right. by rewrite lookup_insert_eq.
  - destruct (isFalsy (field "customer" formData)).
    + intros [= <- _]. left. by rewrite lookup_insert_ne.
    + intros Hrun. by apply firstAction_never_errors in Hrun.
Qed.

Lemma validation_never_says_required_witness :
  ∃ errors,
    FormValidation.createOrderAction sampleUrl [("customer", "Ana"); ("phone", EmptyString)]
      offline
    = (Normal (FieldErrors errors), offline) ∧
    (errors !! "phone" = None ∨
     errors !! "phone" = Some "Phone must be at least 10 digits").
Proof.
  eexists. split; [reflexivity|].
  eapply (validation_never_says_required sampleUrl
            [("customer", "Ana"); ("phone", EmptyString)] offline _ offline).
  reflexivity.
Defined.

(** X22. In the action with field validation a phone of fewer than ten code
    units is answered with the message about ten digits before the cart
    field is parsed: nothing is sent and nothing is thrown, whatever the
    cart field holds. *)
Theorem validation_short_phone url formData phone w :
  field "phone" formData = Some phone → (String.length phone < 10)%nat →
  ∃ errors,
    FormValidation.createOrderAction url formData w = (Normal (FieldErrors errors), w) ∧
    errors !! "phone" = Some "Phone must be at least 10 digits".
Proof.
  intros Hphone Hshort. rewrite validatedAction_unfold, Hphone.
  rewrite bool_decide_eq_true_2 by lia.
  eexists. split; [reflexivity|]. by rewrite lookup_insert_eq.
Qed.

Lemma validation_short_phone_witness :
  ∃ errors,
    FormValidation.createOrderAction sampleUrl brokenEntries offline
    = (Normal (FieldErrors errors), offline) ∧
    errors !! "phone" = Some "Phone must be at least 10 digits".
Proof.
  apply (validation_short_phone sampleUrl brokenEntries "123" offline).
  - reflexivity.
  - simpl. lia.
Defined.

(** X23. When the customer field is not empty and the phone has at least
    ten code units, the action with field validation behaves exactly as the
    action without any check; in particular a phone of ten letters is
    sent. *)
Theorem validation_passes url formData customer phone w :
  field "customer" formData = Some customer → customer ≠ EmptyString →
  field "phone" formData = Some phone → (10 ≤ String.length phone)%nat →
  FormValidation.createOrderAction url formData w
  = ActionLesson.createOrderAction url formData w.
Proof.
  intros Hcustomer Hfilled Hphone Hlong.
  rewrite validatedAction_unfold, Hphone, Hcustomer.
  rewrite bool_decide_eq_false_2 by lia.
  simpl. apply String.eqb_neq in Hfilled. by rewrite Hfilled.
Qed.

Lemma validation_passes_witness :
  FormValidation.createOrderAction sampleUrl
    (CreateOrder margheritaStore (sampleTyped "abcdefghij")) offline
  = ActionLesson.createOrderAction sampleUrl
      (CreateOrder margheritaStore (sampleTyped "abcdefghij")) offline.
Proof.
  apply (validation_passes sampleUrl _ "Ana" "abcdefghij" offline).
  - reflexivity.
  - discriminate.
  - reflexivity.
  - simpl. lia.
Defined.

(** ** The shape of an accepted phone *)

Lemma allChars_app P s1 s2 :
  allChars P (s1 +:+ s2) = allChars P s1 && allChars P s2.
Proof.
  induction s1 as [|c s1 IH]; simpl; [done|]. rewrite IH. by destruct (P c).
Qed.

Lemma allChars_impl (P Q : ascii → bool) s :
  (∀ c, P c = true → Q c = true) → allChars P s = true → allChars Q s = true.
Proof.
  intros Himpl. induction s as [|c s IH]; simpl; [done|].
  rewrite !andb_true_iff. intros [Hc Hs]. split; [by apply Himpl | by apply IH].
Qed.

Lemma alphabet_sound r s : Matches r s → allChars (alphabet r) s = true.
Proof.
  induction 1 as [|member c Hc|r1 r2 s1 s2 _ IH1 _ IH2|r1 r2 s _ IH|r1 r2 s _ IH];
    simpl.
  - done.
  - by rewrite Hc.
  - rewrite allChars_app, andb_true_iff. split.
    + eapply allChars_impl; [|exact IH1]. intros c Hc. by rewrite Hc.
    + eapply allChars_impl; [|exact IH2]. intros c Hc. rewrite Hc. by destruct (alphabet r1 c).
  - eapply allChars_impl; [|exact IH]. intros c Hc. by rewrite Hc.
  - eapply allChars_impl; [|exact IH]. intros c Hc. rewrite Hc. by destruct (alphabet r1 c).
Qed.

Lemma maxLength_bound r s : Matches r s → (String.length s ≤ maxLength r)%nat.
Proof.
  induction 1 as [|member c Hc|r1 r2 s1 s2 _ IH1 _ IH2|r1 r2 s _ IH|r1 r2 s _ IH];
    simpl; try lia.
  rewrite length_append. lia.
Qed.

Lemma phone_alphabet c : alphabet phonePattern c = true → isPhoneChar c = true.
Proof.
  destruct c as [[] [] [] [] [] [] [] []]; vm_compute; done.
Qed.

(** X24. A phone the pattern accepts has between five and thirty-one code
    units, and each of them is a digit, a plus sign, a parenthesis, a
    hyphen, a dot or white space. *)
Theorem valid_phone_shape str :
  isValidPhone str = true →
  (5 ≤ String.length str ≤ 31)%nat ∧ allChars isPhoneChar str = true.
Proof.
  intros Hvalid. apply isValidPhone_spec in Hvalid.
  destruct (minLength_bound _ _ Hvalid) as (n & Hn & Hmin).
  vm_compute in Hn. injection Hn as <-.
  pose proof (maxLength_bound _ _ Hvalid) as Hmax.
  change (maxLength phonePattern) with 31%nat in Hmax.
  split; [lia|].
  eapply allChars_impl; [exact phone_alphabet|]. by apply alphabet_sound.
Qed.

Lemma valid_phone_shape_witness :
  (5 ≤ String.length "+1 (555) 123-4567" ≤ 31)%nat ∧
  allChars isPhoneChar "+1 (555) 123-4567" = true.
Proof. apply valid_phone_shape. vm_compute. reflexivity. Defined.

(** ** The assembled order and the hidden cart field *)

(** X25. In the order the action assembles, priority is a boolean, true
    exactly when the form sent the string on; cart is what the cart field
    parsed to; every other field is the one of the form. *)
Theorem assembleOrder_fields data order :
  assembleOrder data = Normal order →
  (∃ b, lookupProp "priority" order = Some (JBool b) ∧
        (b = true ↔ lookupProp "priority" data = Some (JStr "on"))) ∧
  (∃ parsed, JSON.parse (toString (lookupProp "cart" data)) = Normal parsed ∧
             lookupProp "cart" order = Some parsed) ∧
  ∀ key, key ≠ "cart" → key ≠ "priority" → lookupProp key order = lookupProp key data.
Proof.
  unfold assembleOrder.
  destruct (JSON.parse (toString (lookupProp "cart" data))) as [parsed|e]; [|done].
  intros [= <-]. split; [|split].
  - eexists. split; [apply lookupProp_setProp_eq|].
    destruct (lookupProp "priority" data) as [[| | |s| |]|]; try (split; done).
    rewrite String.eqb_eq. split; [by intros -> | by intros [= ->]].
  - exists parsed. split; [done|].
    rewrite lookupProp_setProp_ne by done. apply lookupProp_setProp_eq.
  - intros key Hcart Hpriority. by rewrite !lookupProp_setProp_ne.
Qed.

Lemma assembleOrder_fields_witness :
  ∃ b, lookupProp "priority" (formOrder "Ana" fakeCart (sampleTyped "123")) = Some (JBool b) ∧
       (b = true ↔
        lookupProp "priority"
          (fromEntries (formEntries "Ana" fakeCart (sampleTyped "123")))
        = Some (JStr "on")).
Proof.
  refine (proj1 (assembleOrder_fields _ _ _)).
  apply assembleOrder_form.
Defined.

(** X26. The hidden cart field determines the cart: two carts with the
    same field value are the same list of items. *)
Theorem hiddenCart_injective items items' :
  hiddenCart items = hiddenCart items' → items = items'.
Proof.
  intros Heq. apply cartToJs_inj.
  pose proof (parse_hiddenCart items) as Hparse.
  rewrite Heq, parse_hiddenCart in Hparse. congruence.
Qed.

Lemma hiddenCart_injective_witness : fakeCart = fakeCart.
Proof. apply hiddenCart_injective. reflexivity. Defined.

(** X27. After clearCart, whatever the cart held, the overview renders
    nothing, the cart counts as empty with no lines, no pizzaId is found,
    and both quantity reducers throw for every pizzaId. *)
Theorem clearCart_empties rev state id :
  let state' := storeAfter rev state ClearCart in
  renderCartOverview state' = None ∧
  CartSlice.getIsCartEmpty state' = true ∧
  getUniqueItemsCount state' = 0 ∧
  CartSlice.getCartItemById id state' = None ∧
  cartReducer rev (cartSlice state') (IncreaseItemQuantity id) = Throw TypeError ∧
  cartReducer rev (cartSlice state') (DecreaseItemQuantity id) = Throw TypeError.
Proof.
  cbv zeta. repeat split. simpl. by apply decrease_absent.
Qed.

Lemma lookup_after_delete_witness :
  CartSlice.getCartItemById 12 (storeAfter CartOverview filledStore (DeleteItem 6))
  = CartSlice.getCartItemById 12 filledStore.
Proof.
  apply (proj2 (lookup_after_delete CartOverview filledStore 6)). lia.
Defined.
